(** * The blog's entry modules and content files

    The repository consists of two entry modules ([src/main.ts] and the
    unnamed [src/unnamed/part_000]), each a single top-level call of the
    imported [blog] function on an object literal, and of Markdown content
    files that start with a front-matter block.

    The entry modules are embedded as syntax of the small fragment of the
    language they are written in, and run by an evaluator that threads a heap
    of objects and a trace of effects.  The rendering engine behind [blog] is
    external: its answer to a call is a parameter of the run. *)

From Stdlib Require Import String Ascii List Arith Lia Bool.
From stdpp Require Import base option list strings.

Set Warnings "-register-all".

Open Scope string_scope.
Open Scope list_scope.

(** ** Values, objects and the heap *)

(** An imported binding: the module it comes from and the export's name. *)
Record import_ref := ImportRef { ref_url : string; ref_export : string }.

Inductive value :=
| VUndef
| VStr (s : string)
| VBool (b : bool)
| VRef (l : nat)
| VFun (f : import_ref).

(** Heap cells.  Property order is insertion order, as in the language. *)
Inductive object :=
| OObj (props : list (string * value))
| OArr (elems : list value).

Abbreviation heap := (list object).

(** ** Syntax *)

(** Expressions.  The entry modules use string and boolean literals, array
    and object literals, an identifier and a call.  Property assignment and
    the two ambient reads of the runtime ([Deno.args], [Deno.env.get]) are
    part of the fragment so that "is never written" and "does not depend on
    the environment" are statements about the modules and not about the
    syntax. *)
Inductive expr :=
| EStr (s : string)
| EBool (b : bool)
| EArr (elems : list expr)
| EObj (props : list (string * expr))
| EVar (x : string)
| ECall (callee : expr) (args : list expr)
| ESet (target : expr) (key : string) (rhs : expr)
| EArgs
| EEnv (name : string).

(** Top-level statements: [import d, { n1, n2 } from url], [const x = e],
    and an expression statement. *)
Inductive stmt :=
| SImport (default : option string) (named : list string) (url : string)
| SConst (x : string) (e : expr)
| SExpr (e : expr).

(** ** Effects *)

Inductive event :=
| EvNew (l : nat)
| EvSet (l : nat) (key : string) (v : value)
| EvCall (f : import_ref) (args : list value) (h : heap).

Inductive error :=
| ReferenceError (x : string)
| TypeError
| Thrown (f : import_ref).

Record state := State { st_heap : heap; st_trace : list event }.

(** What the process cannot decide itself: its command line, its
    environment, and what an imported function answers ([None]: it throws). *)
Record world := World {
  w_args : list string;
  w_env : list (string * string);
  w_respond : import_ref -> list value -> heap -> option value
}.

(** State, error and reader in one: the state survives an error, as the
    effects already performed do. *)
Definition M (A : Type) : Type := world -> state -> state * (error + A).

Definition ret {A} (a : A) : M A := fun _ s => (s, inr a).

Definition bind {A B} (m : M A) (k : A -> M B) : M B :=
  fun w s =>
    match m w s with
    | (s', inl e) => (s', inl e)
    | (s', inr a) => k a w s'
    end.

Definition throw {A} (e : error) : M A := fun _ s => (s, inl e).

Notation "'let*' x := m 'in' k" := (bind m (fun x => k))
  (at level 10, x name, m at level 100, k at level 200).

(** A fresh cell at the end of the heap. *)
Definition alloc (o : object) : M value :=
  fun _ s =>
    let l := length (st_heap s) in
    (State (st_heap s ++ [o]) (st_trace s ++ [EvNew l]), inr (VRef l)).

(** Property lookup and definition on a property list. *)
Fixpoint obj_get {A} (k : string) (ps : list (string * A)) : option A :=
  match ps with
  | [] => None
  | (k', v) :: ps' => if String.eqb k k' then Some v else obj_get k ps'
  end.

Fixpoint obj_set {A} (k : string) (v : A) (ps : list (string * A))
  : list (string * A) :=
  match ps with
  | [] => [(k, v)]
  | (k', v') :: ps' =>
      if String.eqb k k' then (k, v) :: ps' else (k', v') :: obj_set k v ps'
  end.

(** [target.key = v] on a heap object. *)
Definition set_prop (target : value) (k : string) (v : value) : M value :=
  fun _ s =>
    match target with
    | VRef l =>
        match st_heap s !! l with
        | Some (OObj ps) =>
            (State (<[l := OObj (obj_set k v ps)]> (st_heap s))
                   (st_trace s ++ [EvSet l k v]), inr v)
        | _ => (s, inl TypeError)
        end
    | _ => (s, inl TypeError)
    end.

(** A call of an imported function: the call is recorded with the heap it
    sees, then the engine answers or throws. *)
Definition call (callee : value) (args : list value) : M value :=
  fun w s =>
    match callee with
    | VFun f =>
        let s' := State (st_heap s) (st_trace s ++ [EvCall f args (st_heap s)]) in
        match w_respond w f args (st_heap s) with
        | Some v => (s', inr v)
        | None => (s', inl (Thrown f))
        end
    | _ => (s, inl TypeError)
    end.

(** [Deno.args]: a fresh array of the command-line arguments. *)
Definition read_args : M value :=
  fun w s => alloc (OArr (map VStr (w_args w))) w s.

(** [Deno.env.get(name)]. *)
Definition read_env (name : string) : M value :=
  fun w s =>
    (s, inr (match obj_get name (w_env w) with
             | Some x => VStr x
             | None => VUndef
             end)).

Definition env := list (string * value).

(** ** Evaluation *)

(** Array elements and call arguments: left to right. *)
Fixpoint eval_elems {A} (ev : A -> M value) (es : list A) : M (list value) :=
  match es with
  | [] => ret []
  | e :: es' =>
      let* v := ev e in
      let* vs := eval_elems ev es' in
      ret (v :: vs)
  end.

(** Property definitions: left to right; a later property of the same name
    replaces the earlier one in place. *)
Fixpoint eval_props {A} (ev : A -> M value) (ps : list (string * A))
    (acc : list (string * value)) : M (list (string * value)) :=
  match ps with
  | [] => ret acc
  | (k, e) :: ps' =>
      let* v := ev e in
      eval_props ev ps' (obj_set k v acc)
  end.

Fixpoint eval (rho : env) (e : expr) {struct e} : M value :=
  match e with
  | EStr s => ret (VStr s)
  | EBool b => ret (VBool b)
  | EArr es =>
      let* vs := eval_elems (eval rho) es in
      alloc (OArr vs)
  | EObj ps =>
      let* kvs := eval_props (eval rho) ps [] in
      alloc (OObj kvs)
  | EVar x =>
      match obj_get x rho with
      | Some v => ret v
      | None => throw (ReferenceError x)
      end
  | ECall c es =>
      let* f := eval rho c in
      let* vs := eval_elems (eval rho) es in
      call f vs
  | ESet t k r =>
      let* tv := eval rho t in
      let* rv := eval rho r in
      set_prop tv k rv
  | EArgs => read_args
  | EEnv name => read_env name
  end.

(** The bindings an import statement introduces. *)
Definition bind_import (default : option string) (named : list string)
    (url : string) (rho : env) : env :=
  let rho1 :=
    match default with
    | Some x => (x, VFun (ImportRef url "default")) :: rho
    | None => rho
    end in
  fold_left (fun r n => (n, VFun (ImportRef url n)) :: r) named rho1.

Fixpoint exec (rho : env) (ss : list stmt) : M unit :=
  match ss with
  | [] => ret tt
  | SImport d ns url :: ss' => exec (bind_import d ns url rho) ss'
  | SConst x e :: ss' => let* v := eval rho e in exec ((x, v) :: rho) ss'
  | SExpr e :: ss' => let* _ := eval rho e in exec rho ss'
  end.

(** A process starts on an empty heap with nothing done yet. *)
Definition init : state := State [] [].

Definition run (w : world) (m : list stmt) : state * (error + unit) :=
  exec [] m w init.

(** ** Reading a value back from the heap *)

Inductive tree :=
| TUndef
| TStr (s : string)
| TBool (b : bool)
| TFun (f : import_ref)
| TArr (elems : list tree)
| TObj (props : list (string * tree)).

Fixpoint reify (fuel : nat) (h : heap) (v : value) {struct fuel} : option tree :=
  match v with
  | VUndef => Some TUndef
  | VStr s => Some (TStr s)
  | VBool b => Some (TBool b)
  | VFun f => Some (TFun f)
  | VRef l =>
      match fuel with
      | 0 => None
      | S n =>
          match h !! l with
          | Some (OArr vs) => TArr <$> mapM (reify n h) vs
          | Some (OObj ps) =>
              TObj <$> mapM (fun kv => pair (fst kv) <$> reify n h (snd kv)) ps
          | None => None
          end
      end
  end.

(** A field of an object value; [None] when the field is not set. *)
Definition field (k : string) (t : tree) : option tree :=
  match t with
  | TObj ps => obj_get k ps
  | _ => None
  end.

(** The calls of imported functions in a trace, with their arguments read
    back from the heap the call saw. *)
Fixpoint calls (t : list event) : list (import_ref * list (option tree)) :=
  match t with
  | [] => []
  | EvCall f args h :: t' =>
      (f, map (reify (S (length h)) h) args) :: calls t'
  | _ :: t' => calls t'
  end.

Definition is_set (e : event) : bool :=
  match e with EvSet _ _ _ => true | _ => false end.

Definition is_new_of (l : nat) (e : event) : bool :=
  match e with EvNew l' => Nat.eqb l l' | _ => false end.

(** Everything but the allocation of fresh cells is a side effect. *)
Definition is_effect (e : event) : bool :=
  match e with EvNew _ => false | _ => true end.

(** ** The entry modules *)

(** The object literal of [src/main.ts]. *)
Definition main_settings : expr :=
  EObj
    [ ("title", EStr "Henok Tadesse");
      ("author", EStr "Henok Tadesse");
      ("avatar", EStr "avatar.jpg");
      ("avatarClass", EStr "rounded-full");
      ("background", EStr "#f9f9f9");
      ("links", EArr
         [ EObj [ ("title", EStr "Email");
                  ("url", EStr "mailto:hegystyle@gmail.com") ];
           EObj [ ("title", EStr "Github");
                  ("url", EStr "https://github.com/HenokT") ] ]) ].

(** [src/main.ts]: the import and the one call.  The [middlewares] property
    and its [ga] and [redirects] calls are comments there, hence absent. *)
Definition main_ts : list stmt :=
  [ SImport (Some "blog") ["ga"; "redirects"]
      "https://deno.land/x/blog@0.3.3/blog.tsx";
    SExpr (ECall (EVar "blog") [main_settings]) ].

(** The object literal of [src/unnamed/part_000]. *)
Definition part_settings : expr :=
  EObj
    [ ("author", EStr "Henok Tadesse");
      ("title", EStr "Henok Tadesse");
      ("description",
         EStr "A personal blog where I share what I learn as a sofware developer.");
      ("avatar", EStr "avatar.jpg");
      ("avatarClass", EStr "rounded-full");
      ("links", EArr
         [ EObj [ ("title", EStr "Email");
                  ("url", EStr "mailto:hegystyle@gmail.com") ];
           EObj [ ("title", EStr "Github");
                  ("url", EStr "https://github.com/HenokT") ] ]);
      ("readtime", EBool true);
      ("middlewares", EArr []) ].

(** [src/unnamed/part_000]: the [middlewares] array is written out, its
    entries are comments. *)
Definition part_000 : list stmt :=
  [ SImport (Some "blog") []
      "https://raw.githubusercontent.com/denoland/deno_blog/main/blog.tsx";
    SExpr (ECall (EVar "blog") [part_settings]) ].

(** The entry point each module imports. *)
Definition blog_0_3_3 : import_ref :=
  ImportRef "https://deno.land/x/blog@0.3.3/blog.tsx" "default".

Definition blog_github_main : import_ref :=
  ImportRef "https://raw.githubusercontent.com/denoland/deno_blog/main/blog.tsx"
            "default".

(** ** Observations of a run *)

(** The calls a module makes, arguments read back. *)
Definition handed (w : world) (m : list stmt)
  : list (import_ref * list (option tree)) :=
  calls (st_trace (fst (run w m))).

(** The record a module hands over, when it makes one call with one
    argument. *)
Definition config_of (w : world) (m : list stmt) : option tree :=
  match handed w m with
  | [(_, [Some t])] => Some t
  | _ => None
  end.

(** ** Literals *)

(** Expressions built from string, boolean, array and object literals only. *)
Fixpoint literal (e : expr) : bool :=
  match e with
  | EStr _ | EBool _ => true
  | EArr es => forallb literal es
  | EObj ps => forallb (fun kv => literal (snd kv)) ps
  | _ => false
  end.

(** The value a literal denotes. *)
Fixpoint tree_of (e : expr) : tree :=
  match e with
  | EStr s => TStr s
  | EBool b => TBool b
  | EArr es => TArr (map tree_of es)
  | EObj ps =>
      TObj (fold_left (fun acc kv => obj_set (fst kv) (tree_of (snd kv)) acc)
                      ps [])
  | _ => TUndef
  end.

(** No imported function occurs in a value. *)
Fixpoint no_handle (t : tree) : bool :=
  match t with
  | TFun _ => false
  | TArr ts => forallb no_handle ts
  | TObj ps => forallb (fun kv => no_handle (snd kv)) ps
  | _ => true
  end.

#[global] Instance import_ref_eq_dec : EqDecision import_ref.
Proof. solve_decision. Defined.

#[global] Instance value_eq_dec : EqDecision value.
Proof. solve_decision. Defined.

#[global] Instance object_eq_dec : EqDecision object.
Proof. solve_decision. Defined.

(** ** Content files *)

(** A calendar date as written in a front-matter block. *)
Record date := Date { year : nat; month : nat; day : nat }.

Record front_matter := FrontMatter {
  fm_title : string;
  fm_publish_date : date;
  fm_pathname : option string
}.

Definition leap (y : nat) : bool :=
  ((y mod 4 =? 0) && negb (y mod 100 =? 0) || (y mod 400 =? 0))%nat.

Definition days_in_month (y m : nat) : nat :=
  match m with
  | 1 | 3 | 5 | 7 | 8 | 10 | 12 => 31
  | 4 | 6 | 9 | 11 => 30
  | 2 => if leap y then 29 else 28
  | _ => 0
  end.

Definition valid_date (d : date) : bool :=
  ((1 <=? month d) && (month d <=? 12)
   && (1 <=? day d) && (day d <=? days_in_month (year d) (month d)))%nat.

Definition digit (c : ascii) : option nat :=
  let n := nat_of_ascii c in
  if ((48 <=? n) && (n <=? 57))%nat then Some (n - 48) else None.

Definition dash : ascii := "-"%char.
Definition colon : ascii := ":"%char.
Definition space : ascii := " "%char.
Definition dquote : ascii := "034"%char.

(** [YYYY-MM-DD] *)
Definition parse_date (s : string) : option date :=
  match list_ascii_of_string s with
  | [y1; y2; y3; y4; s1; m1; m2; s2; d1; d2] =>
      if Ascii.eqb s1 dash && Ascii.eqb s2 dash then
        match digit y1, digit y2, digit y3, digit y4,
              digit m1, digit m2, digit d1, digit d2 with
        | Some a, Some b, Some c, Some d, Some e, Some f, Some g, Some h =>
            Some (Date (1000 * a + 100 * b + 10 * c + d) (10 * e + f) (10 * g + h))
        | _, _, _, _, _, _, _, _ => None
        end
      else None
  | _ => None
  end.

Fixpoint trim_left (l : list ascii) : list ascii :=
  match l with
  | c :: l' => if Ascii.eqb c space then trim_left l' else l
  | [] => []
  end.

Definition trim (l : list ascii) : list ascii :=
  trim_left (rev (trim_left (rev l))).

(** A scalar between double quotes stands for what is between them. *)
Definition unquote (l : list ascii) : list ascii :=
  match l with
  | c :: l' =>
      if Ascii.eqb c dquote then
        match rev l' with
        | c' :: r => if Ascii.eqb c' dquote then rev r else l
        | [] => l
        end
      else l
  | [] => l
  end.

(** The part before the first colon and the part after it. *)
Fixpoint split_colon (l : list ascii) : option (list ascii * list ascii) :=
  match l with
  | [] => None
  | c :: l' =>
      if Ascii.eqb c colon then Some ([], l')
      else match split_colon l' with
           | Some (k, v) => Some (c :: k, v)
           | None => None
           end
  end.

(** One [key: value] line. *)
Definition key_value (line : string) : option (string * string) :=
  match split_colon (list_ascii_of_string line) with
  | Some (k, v) =>
      Some (string_of_list_ascii (trim k),
            string_of_list_ascii (unquote (trim v)))
  | None => None
  end.

(** The lines up to the closing [---]. *)
Fixpoint block_lines (ls : list string) : option (list string) :=
  match ls with
  | [] => None
  | l :: ls' =>
      if String.eqb l "---" then Some []
      else match block_lines ls' with
           | Some b => Some (l :: b)
           | None => None
           end
  end.

Fixpoint attributes (ls : list string) : option (list (string * string)) :=
  match ls with
  | [] => Some []
  | l :: ls' =>
      match key_value l, attributes ls' with
      | Some kv, Some kvs => Some (kv :: kvs)
      | _, _ => None
      end
  end.

(** Modelled from the spec: the front-matter parser, which belongs to the
    external rendering engine and is not part of the sources.  A file opens
    with a line [---], then [key: value] lines, then a closing [---]; the
    block is recognised as a record of [title], [publish_date] and the
    optional [pathname], and the Markdown body follows. *)
Definition parse_front_matter (file : list string) : option front_matter :=
  match file with
  | first :: rest =>
      if String.eqb first "---" then
        match block_lines rest with
        | Some b =>
            match attributes b with
            | Some kvs =>
                match obj_get "title" kvs, obj_get "publish_date" kvs with
                | Some t, Some d =>
                    match parse_date d with
                    | Some pd =>
                        Some (FrontMatter t pd (obj_get "pathname" kvs))
                    | None => None
                    end
                | _, _ => None
                end
            | None => None
            end
        | None => None
        end
      else None
  | [] => None
  end.

Definition quoted (s : string) : string :=
  String dquote (s +:+ String dquote EmptyString).

(** The opening lines of [src/posts/jetpack-compose.md]. *)
Definition jetpack_compose_md : list string :=
  [ "---";
    "title: An Introduction to Android Jetpack Compose";
    "publish_date: 2022-06-10";
    "---" ].

(** The opening lines of [src/posts/page-chat.md]; title and pathname are
    written between double quotes there. *)
Definition page_chat_md : list string :=
  [ "---";
    "title: " +:+ quoted "Enhance Your Web Browsing Experience with Our Chrome Extension: PageChat";
    "pathname: " +:+ quoted "/enhance-your-web-browsing-experience-with-pagechat-our-chrome-extension-and-how-we-built-it";
    "publish_date: 2023-06-08";
    "---" ].

(** The opening lines of [src/drafts/promise-all-settled.md]. *)
Definition promise_all_settled_md : list string :=
  [ "---";
    "title: A better Promise.all";
    "publish_date: 2022-06-22";
    "---" ].

(** The opening lines of the unnamed post [src/unnamed/part_001]. *)
Definition part_001 : list string :=
  [ "---";
    "title: Remembering the previous value of a prop or a state while using React Hooks";
    "publish_date: 2019-06-15";
    "---" ].

Definition content_files : list (list string) :=
  [ jetpack_compose_md; page_chat_md; promise_all_settled_md; part_001 ].

(** ** Vocabulary of the statements *)

Definition quiet (tr : list event) : Prop :=
  Forall (fun ev => is_effect ev = false) tr.

(** [e] evaluates, from any state and in any world, to a value that reads
    back as [tree_of e]; it only allocates. *)
Definition builds (rho : env) (e : expr) : Prop :=
  forall s : state, exists (hs : heap) (tr : list event) (v : value),
    (forall w, eval rho e w s
               = (State (st_heap s ++ hs) (st_trace s ++ tr), inr v))
    /\ quiet tr
    /\ reify (S (length (st_heap s ++ hs))) (st_heap s ++ hs) v
       = Some (tree_of e).

(** A property of the heap and its image in the tree. *)
Definition reads (h : heap) (kv : string * value) (kt : string * tree) : Prop :=
  kv.1 = kt.1 /\ reify (S (length h)) h kv.2 = Some kt.2.

(** A module that imports an entry point and calls it on one argument. *)
Definition entry (x : string) (ns : list string) (url : string) (e : expr)
  : list stmt :=
  [ SImport (Some x) ns url; SExpr (ECall (EVar x) [e]) ].

(** A world with no arguments, no environment and an engine that throws. *)
Definition silent : world := World [] [] (fun _ _ _ => None).

(** The record [cfg] is built once and never written.  The trace ends with
    the call that hands the cell [l] over, together with the heap as it is
    at the end of the run; that call is the only event of the run that is
    not an allocation, so there is no second call and no write; the cell
    reads back as [cfg], and it is the only cell of the heap that does: a
    run that evaluates the literal again has another one. *)
Definition built_once_never_written (cfg : tree) (s : state) : Prop :=
  exists (pre : list event) (f : import_ref) (l : nat),
    st_trace s = pre ++ [EvCall f [VRef l] (st_heap s)]
    /\ List.filter is_effect (st_trace s) = [EvCall f [VRef l] (st_heap s)]
    /\ reify (S (length (st_heap s))) (st_heap s) (VRef l) = Some cfg
    /\ (forall l' : nat,
          reify (S (length (st_heap s))) (st_heap s) (VRef l') = Some cfg ->
          l' = l)
    /\ length (List.filter (is_new_of l) (st_trace s)) = 1
    /\ List.filter is_set (st_trace s) = [].

(** Case analysis on whether a key is a given literal. *)
Ltac key_case k lit :=
  destruct (String.eqb_spec k lit) as [->|?].

(** ** Contrast modules

    Not part of the repository: [src/main.ts] with its commented-out
    [middlewares] made active, and two small modules that do what the entry
    modules do not do.  They show what the observations below tell apart. *)

(** An engine that answers every call with a handle on the function called. *)
Definition answering : world := World [] [] (fun f _ _ => Some (VFun f)).

(** A world with an environment. *)
Definition titled : world :=
  World [] [("TITLE", "Another title")] (fun f _ _ => Some (VFun f)).

Definition main_ts_middlewares_active : list stmt :=
  [ SImport (Some "blog") ["ga"; "redirects"]
      "https://deno.land/x/blog@0.3.3/blog.tsx";
    SExpr (ECall (EVar "blog")
      [ EObj
          [ ("title", EStr "Henok Tadesse");
            ("author", EStr "Henok Tadesse");
            ("avatar", EStr "avatar.jpg");
            ("avatarClass", EStr "rounded-full");
            ("background", EStr "#f9f9f9");
            ("links", EArr
               [ EObj [ ("title", EStr "Email");
                        ("url", EStr "mailto:hegystyle@gmail.com") ];
                 EObj [ ("title", EStr "Github");
                        ("url", EStr "https://github.com/HenokT") ] ]);
            ("middlewares", EArr
               [ ECall (EVar "ga") [EStr "UA-XXXXXXXX-X"];
                 ECall (EVar "redirects")
                   [EObj [("/hello_world.html", EStr "/hello_world")]] ]) ] ]) ].

Definition writes_after_handing_over : list stmt :=
  [ SImport (Some "blog") [] "https://deno.land/x/blog@0.3.3/blog.tsx";
    SConst "settings" (EObj [("title", EStr "Henok Tadesse")]);
    SExpr (ECall (EVar "blog") [EVar "settings"]);
    SExpr (ESet (EVar "settings") "title" (EStr "Changed")) ].

(** The literal of [src/main.ts] evaluated three times, the third handed
    over. *)
Definition builds_three_times : list stmt :=
  [ SImport (Some "blog") [] "https://deno.land/x/blog@0.3.3/blog.tsx";
    SConst "first" main_settings;
    SConst "second" main_settings;
    SExpr (ECall (EVar "blog") [main_settings]) ].

(** The literal of [src/main.ts] evaluated once and handed over twice. *)
Definition calls_twice : list stmt :=
  [ SImport (Some "blog") [] "https://deno.land/x/blog@0.3.3/blog.tsx";
    SConst "settings" main_settings;
    SExpr (ECall (EVar "blog") [EVar "settings"]);
    SExpr (ECall (EVar "blog") [EVar "settings"]) ].

Definition title_from_environment : list stmt :=
  [ SImport (Some "blog") [] "https://deno.land/x/blog@0.3.3/blog.tsx";
    SExpr (ECall (EVar "blog") [EObj [("title", EEnv "TITLE")]]) ].

(** ** Induction over the nested syntax *)

Section ExprInd.
Variable P : expr -> Prop.
Hypothesis HStr : forall s, P (EStr s).
Hypothesis HBool : forall b, P (EBool b).
Hypothesis HArr : forall es, Forall P es -> P (EArr es).
Hypothesis HObj : forall ps, Forall (fun kv => P (snd kv)) ps -> P (EObj ps).
Hypothesis HVar : forall x, P (EVar x).
Hypothesis HCall : forall c es, P c -> Forall P es -> P (ECall c es).
Hypothesis HSet : forall t k r, P t -> P r -> P (ESet t k r).
Hypothesis HArgs : P EArgs.
Hypothesis HEnv : forall n, P (EEnv n).

Fixpoint expr_nested_ind (e : expr) : P e :=
  match e with
  | EStr s => HStr s
  | EBool b => HBool b
  | EArr es =>
      HArr es ((fix go (l : list expr) : Forall P l :=
                  match l with
                  | [] => @List.Forall_nil _ P
                  | x :: l' => @List.Forall_cons _ P x l' (expr_nested_ind x) (go l')
                  end) es)
  | EObj ps =>
      HObj ps ((fix go (l : list (string * expr))
                  : Forall (fun kv => P (snd kv)) l :=
                  match l with
                  | [] => @List.Forall_nil _ _
                  | x :: l' =>
                      @List.Forall_cons _ (fun kv => P (snd kv)) x l'
                                       (expr_nested_ind (snd x)) (go l')
                  end) ps)
  | EVar x => HVar x
  | ECall c es =>
      HCall c es (expr_nested_ind c)
            ((fix go (l : list expr) : Forall P l :=
                match l with
                | [] => @List.Forall_nil _ P
                | x :: l' => @List.Forall_cons _ P x l' (expr_nested_ind x) (go l')
                end) es)
  | ESet t k r => HSet t k r (expr_nested_ind t) (expr_nested_ind r)
  | EArgs => HArgs
  | EEnv n => HEnv n
  end.
End ExprInd.

(** * Code shown in the posts

    The posts quote code: two React hooks in [src/unnamed/part_001], the
    pieces of a browser extension in [src/posts/page-chat.md], and Compose
    functions in [src/posts/jetpack-compose.md].  What the runtime does
    around that code (when React renders and runs effects, what the browser
    and the language-model library answer) is a parameter or is written out
    next to the code it serves. *)

(** ** The hooks of [src/unnamed/part_001] *)

Module Hooks.

Section Slots.
Context {A : Type} `{EqDecision A}.

(** [usePreviousValue(value)].  [useRef()] is the cell React keeps for the
    component, undefined on the first render; the effect has no dependency
    list, so it runs after every render.  The result is what is returned
    and what the cell holds once the effect has run. *)
Definition usePreviousValue (value : A) (ref_current : option A)
  : option A * option A :=
  (ref_current, Some value).

(** A component that calls the hook, rendered once for each value. *)
Fixpoint renders (values : list A) (ref_current : option A) : list (option A) :=
  match values with
  | [] => []
  | value :: values' =>
      let '(returned, ref_current') := usePreviousValue value ref_current in
      returned :: renders values' ref_current'
  end.

(** What React keeps between renders for [useTraceableState]: the state of
    [useState], unset before the first render, and the cell of [useRef]. *)
Record slots := Slots { state_slot : option A; ref_slot : option A }.

(** [useState(initialValue)]: the initial value counts on the first render
    only. *)
Definition useState (initialValue : A) (state_slot : option A) : A :=
  match state_slot with
  | Some v => v
  | None => initialValue
  end.

(** [useTraceableState(initialValue)]: returns [prevValue] and [value] (the
    setter is the [SetValue] event below) and leaves the slots behind. *)
Definition useTraceableState (initialValue : A) (s : slots)
  : (option A * A) * slots :=
  let value := useState initialValue (state_slot s) in
  let '(prevValue, ref_current') := usePreviousValue value (ref_slot s) in
  ((prevValue, value), Slots (Some value) ref_current').

(** What happens to a mounted component: its setter is called, or it is
    rendered again for another reason. *)
Inductive event :=
| SetValue (x : A)
| Rerender.

(** React renders again after a state change; a setter called with the
    current state changes nothing and does not render. *)
Definition step (initialValue : A) (c : (option A * A) * slots) (ev : event)
  : (option A * A) * slots :=
  match ev with
  | Rerender => useTraceableState initialValue (snd c)
  | SetValue x =>
      if decide (x = snd (fst c)) then c
      else useTraceableState initialValue (Slots (Some x) (ref_slot (snd c)))
  end.

Definition mount (initialValue : A) : (option A * A) * slots :=
  useTraceableState initialValue (Slots None None).

Definition after (initialValue : A) (evs : list event) : (option A * A) * slots :=
  fold_left (step initialValue) evs (mount initialValue).

End Slots.

End Hooks.

(** ** The Compose card of [src/posts/jetpack-compose.md] *)

Module Compose.

(** The fields of a post that [PostCard] and [PostHeader] read. *)
Record Post := { title : string; content : string }.

Inductive Color := Red | Gray | Yellow.
Inductive TextStyle := h6 | subtitle1 | subtitle2 | body1.
Inductive Arrangement := Top | Center.

(** Modifier elements, lengths in dp; [H] is the type of click handlers. *)
Inductive ModifierElement (H : Type) :=
| padding (start top end_ bottom : nat)
| border (width : nat) (color : Color)
| clickable (onClick : H).

Arguments padding {H} _ _ _ _.
Arguments border {H} _ _.
Arguments clickable {H} _.

(** The emitted tree. *)
Inductive Node (H : Type) :=
| Text (text : string) (style : TextStyle) (modifier : list (ModifierElement H))
| Column (modifier : list (ModifierElement H))
         (verticalArrangement : Arrangement) (children : list (Node H)).

Arguments Text {H} _ _ _.
Arguments Column {H} _ _ _.

Section Card.
Context {H : Type}.

(** What the second [PostHeader] leaves out after its title (the source has
    a comment there). *)
Variable header_rest : Post -> list (Node H).

(** [PostHeader(post, onTitleClick, isExpanded)], lines 77-100. *)
Definition PostHeader (post : Post) (onTitleClick : H) (isExpanded : bool)
  : Node H :=
  Column
    ((fun it => if isExpanded then it ++ [border 1 Red] else it)
       [padding 10 0 10 0])
    Center
    (Text (title post) h6 [padding 0 0 0 8; clickable onTitleClick]
     :: header_rest post).

End Card.

(** [PostCard(post, modifier)], lines 50-75.  The state [isExpanded] is
    remembered across recompositions and starts as [false]; here it is an
    argument, and a handler is the change it makes to that state. *)
Definition PostCard (header_rest : Post -> list (Node (bool -> bool)))
    (post : Post) (modifier : list (ModifierElement (bool -> bool)))
    (isExpanded : bool) : Node (bool -> bool) :=
  Column modifier Top
    (PostHeader header_rest post (fun isExpanded => negb isExpanded) isExpanded
     :: (if isExpanded
         then [Text (content post) body1 [padding 0 8 0 0]]
         else [])).

(** The click handler among the modifier elements of a node. *)
Fixpoint onClick {H} (m : list (ModifierElement H)) : option H :=
  match m with
  | [] => None
  | clickable h :: _ => Some h
  | _ :: m' => onClick m'
  end.

(** The handler of the title of a card: the first child of the header, which
    is the first child of the card. *)
Definition title_handler {H} (card : Node H) : option H :=
  match card with
  | Column _ _ (Column _ _ (Text _ _ m :: _) :: _) => onClick m
  | _ => None
  end.

(** A click on the title: its handler runs on the state. *)
Definition click_title (header_rest : Post -> list (Node (bool -> bool)))
    (post : Post) (modifier : list (ModifierElement (bool -> bool)))
    (isExpanded : bool) : bool :=
  match title_handler (PostCard header_rest post modifier isExpanded) with
  | Some h => h isExpanded
  | None => isExpanded
  end.

End Compose.

(** ** The extension of [src/posts/page-chat.md] *)

Module PageChat.

(** *** Settings, [Popup] and [Options] (lines 22-61) *)

(** Whether a value counts as true in a condition. *)
Definition truthy (t : tree) : bool :=
  match t with
  | TUndef => false
  | TStr s => negb (String.eqb s "")
  | TBool b => b
  | _ => true
  end.

(** [o.k]: undefined when the property is not set. *)
Definition prop (k : string) (o : list (string * tree)) : tree :=
  match obj_get k o with
  | Some t => t
  | None => TUndef
  end.

Inductive view := Options.

(** [Popup]: [Some Options] when it returns the options page, [None] when
    it goes on to the part the post leaves out. *)
Definition Popup (loading : bool) (settings : list (string * tree))
  : option view :=
  if loading || negb (truthy (prop "openAIApiKey" settings))
  then Some Options
  else None.

Inductive options_effect :=
| preventDefault
| setSettings (s : list (string * tree)).

(** [saveOptions], the submit handler of [Options]:
    [{...settings, openAIApiKey: openAIApiKeyInputText}] is the settings
    with that one property defined. *)
Definition saveOptions (settings : list (string * tree))
    (openAIApiKeyInputText : string) : list options_effect :=
  [ preventDefault;
    setSettings (obj_set "openAIApiKey" (TStr openAIApiKeyInputText) settings) ].

(** The settings in the store once the effects have run. *)
Definition stored (effects : list options_effect)
    (settings : list (string * tree)) : list (string * tree) :=
  fold_left (fun s e => match e with setSettings s' => s' | preventDefault => s end)
            effects settings.

(** *** The response stream (lines 100-108) *)

Inductive llm_event :=
| NewToken (token : string)
| End_.

(** [handleLLMNewToken(token)] passes this updater to [setResponseStream]. *)
Definition handleLLMNewToken (token : string) (streamingText : string) : string :=
  streamingText +:+ token.

(** [handleLLMEnd()] sets the stream to the empty string. *)
Definition handleLLMEnd (streamingText : string) : string := "".

Definition responseStream_after (events : list llm_event) (responseStream : string)
  : string :=
  fold_left (fun s ev => match ev with
                         | NewToken token => handleLLMNewToken token s
                         | End_ => handleLLMEnd s
                         end)
            events responseStream.

(** *** The chat history (lines 119-132) *)

Inductive BaseChatMessage :=
| HumanChatMessage (text : string)
| AIChatMessage (text : string).

Definition text (m : BaseChatMessage) : string :=
  match m with
  | HumanChatMessage t => t
  | AIChatMessage t => t
  end.

(** The methods of the [chatHistory] object; the last three are the
    updaters they pass to [setHistory]. *)
Definition getMessages (history : list BaseChatMessage) : list BaseChatMessage :=
  history.

Definition addUserMessage (message : string) (history : list BaseChatMessage)
  : list BaseChatMessage :=
  history ++ [HumanChatMessage message].

Definition addAIChatMessage (message : string) (history : list BaseChatMessage)
  : list BaseChatMessage :=
  history ++ [AIChatMessage message].

Definition clear (history : list BaseChatMessage) : list BaseChatMessage := [].

(** *** The message rows (lines 198-238) *)

Record row := Row { label : string; markdown : string }.

Definition ChatMessageRow (message : BaseChatMessage) : row :=
  Row (match message with
       | HumanChatMessage _ => "You: "
       | AIChatMessage _ => "Bot: "
       end)
      (text message).

(** [s && <ChatMessageRow message={...} />]: nothing for the empty string. *)
Definition row_if (s : string) (message : string -> BaseChatMessage) : list row :=
  if String.eqb s "" then [] else [ChatMessageRow (message s)].

(** The message panel of [Chatbot]: [None] when the panel is not rendered. *)
Definition Chatbot (history : list BaseChatMessage)
    (userInputAwaitingResponse responseStream error : string)
  : option (list row) :=
  if (0 <? length history)%nat
     || negb (String.eqb userInputAwaitingResponse "")
     || negb (String.eqb responseStream "")
     || negb (String.eqb error "")
  then Some (map ChatMessageRow history
             ++ row_if userInputAwaitingResponse HumanChatMessage
             ++ row_if responseStream AIChatMessage
             ++ row_if error (fun error => AIChatMessage ("Error: " +:+ error)))
  else None.

(** *** The content script (lines 332-347) *)

(** A page element: its tag, its rendered text and its child elements. *)
Inductive element :=
| Element (tagName : string) (innerText : string) (children : list element).

Definition tagName (e : element) : string :=
  match e with Element t _ _ => t end.

Definition innerText (e : element) : string :=
  match e with Element _ t _ => t end.

Definition children (e : element) : list element :=
  match e with Element _ _ cs => cs end.

(** [e.querySelector(tag)]: the first element below [e], in document order,
    with that tag. *)
Fixpoint querySelector (tag : string) (e : element) : option element :=
  match e with
  | Element _ _ cs =>
      (fix first (l : list element) : option element :=
         match l with
         | [] => None
         | c :: l' =>
             if String.eqb (tagName c) tag then Some c
             else match querySelector tag c with
                  | Some x => Some x
                  | None => first l'
                  end
         end) cs
  end.

(** The elements below [e], in document order. *)
Fixpoint descendants (e : element) : list element :=
  match e with
  | Element _ _ cs => flat_map (fun c => c :: descendants c) cs
  end.

Record GetPageContentRequest := Request { action : string }.
Record GetPageContentResponse := Response { pageContent : string }.

(** [a ?? b ?? c] *)
Definition primaryContentElement (body : element) : element :=
  match querySelector "article" body with
  | Some a => a
  | None =>
      match querySelector "main" body with
      | Some m => m
      | None => body
      end
  end.

(** The listener: what it passes to [sendResponse], if anything. *)
Definition onMessage (request : GetPageContentRequest) (body : element)
  : option GetPageContentResponse :=
  if String.eqb (action request) "getPageContent"
  then Some (Response (innerText (primaryContentElement body)))
  else None.

(** *** Getting the page content (lines 263-282) *)

(** An error object and what a template literal makes of it. *)
Record exn := Exn { name : string; message : string }.

Definition toString (e : exn) : string :=
  if String.eqb (name e) "" then message e
  else if String.eqb (message e) "" then name e
  else name e +:+ ": " +:+ message e.

Inductive completion (A : Type) :=
| Return (a : A)
| Throw (e : exn).

Arguments Return {A} _.
Arguments Throw {A} _.

Record tab := Tab { id : option nat }.

(** Reading a property of [undefined]. *)
Definition undefined_read (property : string) : exn :=
  Exn "TypeError"
      ("Cannot read properties of undefined (reading '" +:+ property +:+ "')").

(** [getCurrentPageContent()]: [tabs] is what [chrome.tabs.query] answers
    and [sendMessage] what [chrome.tabs.sendMessage] does.  The result is
    what was written to the console and how the function completes;
    [Return None] is a return of [undefined]. *)
Definition getCurrentPageContent
    (tabs : exn + list tab)
    (sendMessage : nat -> GetPageContentRequest
                   -> exn + option GetPageContentResponse)
  : list exn * completion (option GetPageContentResponse) :=
  match tabs with
  | inl e => ([], Throw e)
  | inr [] => ([], Throw (undefined_read "id"))
  | inr (tab :: _) =>
      match id tab with
      | None | Some 0 => ([], Return None)
      | Some tab_id =>
          match sendMessage tab_id (Request "getPageContent") with
          | inr response => ([], Return response)
          | inl error =>
              ([error], Throw (Exn "Error" "Unable to get page content"))
          end
      end
  end.

(** *** Sending a message (lines 165-190 and 374-405) *)

(** What [sendUserMessage] passes to the retrieval chain. *)
Record qa_call := QaCall { question : string; chat_history : list string }.

(** A call the memory of a [ConversationChain] makes on the [chatHistory]
    object while the chain runs, and what it does to the history. *)
Inductive memory_call :=
| memory_addUserMessage (message : string)
| memory_addAIChatMessage (message : string)
| memory_clear.

Definition memory_update (history : list BaseChatMessage) (c : memory_call)
  : list BaseChatMessage :=
  match c with
  | memory_addUserMessage message => addUserMessage message history
  | memory_addAIChatMessage message => addAIChatMessage message history
  | memory_clear => clear history
  end.

(** The memoised [chain]: a [ConversationChain], whose call takes the input
    and uses its memory; a [ConversationalRetrievalQAChain], whose call
    takes the question and the chat history; or undefined, while there is
    no vector store.  A call answers with the text of the response or
    rejects. *)
Inductive chain :=
| ConversationChain
    (call : string -> list BaseChatMessage
            -> list memory_call * (exn + string))
| ConversationalRetrievalQAChain (call : qa_call -> exn + string)
| undefined_chain.

Inductive chat_action :=
| newAbortController
| setUserInputAwaitingResponse (s : string)
| setUserInput (s : string)
| called_with_input (input : string)
| called_with_question (c : qa_call)
| handed_to_catch (e : exn).

(** [sendUserMessage]: the body of its [try].  The result is what the
    handler did, in order, and the history afterwards; an error goes to the
    [catch] the post leaves out.  In page mode the history grows only once
    the call has answered. *)
Definition sendUserMessage (chain : chain) (userInput : string)
    (history : list BaseChatMessage)
  : list chat_action * list BaseChatMessage :=
  let begun :=
    [ newAbortController; setUserInputAwaitingResponse userInput;
      setUserInput "" ] in
  match chain with
  | ConversationChain call =>
      let '(memory, response) := call userInput (getMessages history) in
      let history' := fold_left memory_update memory history in
      match response with
      | inr _ => (begun ++ [called_with_input userInput], history')
      | inl error =>
          (begun ++ [called_with_input userInput; handed_to_catch error],
           history')
      end
  | ConversationalRetrievalQAChain call =>
      let asked := QaCall userInput (map text history) in
      match call asked with
      | inr response_text =>
          (begun ++ [called_with_question asked],
           history ++ [ HumanChatMessage userInput;
                        AIChatMessage response_text ])
      | inl error =>
          (begun ++ [called_with_question asked; handed_to_catch error],
           history)
      end
  | undefined_chain => (begun, history)
  end.

(** The user sends one message after the other. *)
Fixpoint conversation (chain : chain) (inputs : list string)
    (history : list BaseChatMessage)
  : list chat_action * list BaseChatMessage :=
  match inputs with
  | [] => ([], history)
  | userInput :: inputs' =>
      let '(done, history') := sendUserMessage chain userInput history in
      let '(done', history'') := conversation chain inputs' history' in
      (done ++ done', history'')
  end.

(** The calls the retrieval chain received, read off what the handler did. *)
Definition questions_asked (actions : list chat_action) : list qa_call :=
  flat_map (fun a => match a with
                     | called_with_question c => [c]
                     | _ => []
                     end)
           actions.

(** *** Loading the page into the vector store (lines 284-322) *)

Section Effects.

(** The documents of the text splitter and the vector store, and the two
    library calls that make them. *)
Context {Docs Store : Type}.
Variable createDocuments :
  forall (chunkSize : nat) (chunkOverlap : option nat) (texts : list string),
    exn + Docs.
Variable fromDocuments : Docs -> forall openAIApiKey : tree, exn + Store.

Inductive page_action :=
| console_error (e : exn)
| setError (s : string)
| setPageContentVectorStore (v : Store).

Definition caught (e : exn) : list page_action :=
  [ console_error e; setError ("Error: " +:+ toString e) ].

(** [ignore] is the flag as the function reads it after its awaits: true
    when the cleanup of the effect has run by then. *)
Definition loadPageIntoVectorStore
    (tabs : exn + list tab)
    (sendMessage : nat -> GetPageContentRequest
                   -> exn + option GetPageContentResponse)
    (openAIApiKey : tree) (ignore : bool) : list page_action :=
  let '(logged, got) := getCurrentPageContent tabs sendMessage in
  map console_error logged
  ++ match got with
     | Throw e => caught e
     | Return None => []
     | Return (Some response) =>
         if String.eqb (pageContent response) "" then []
         else
           match createDocuments 4000 (Some 200) [pageContent response] with
           | inl e => caught e
           | inr docs =>
               match fromDocuments docs openAIApiKey with
               | inl e => caught e
               | inr vectorStore =>
                   if ignore then [] else [setPageContentVectorStore vectorStore]
               end
           end
     end.

(** The body of the effect. *)
Definition page_effect (chatMode : string)
    (tabs : exn + list tab)
    (sendMessage : nat -> GetPageContentRequest
                   -> exn + option GetPageContentResponse)
    (openAIApiKey : tree) (ignore : bool) : list page_action :=
  if String.eqb chatMode "with-page"
  then loadPageIntoVectorStore tabs sendMessage openAIApiKey ignore
  else [].

(** The error state after the actions. *)
Definition error_after (actions : list page_action) (error : string) : string :=
  fold_left (fun err a => match a with setError s => s | _ => err end)
            actions error.

(** *** Summarising the page (lines 463-515) *)

(** The table [SUPPORTED_SUMMARY_TYPES], type and template of each entry, and
    the call of the summarisation chain on a template and the documents. *)
Variable SUPPORTED_SUMMARY_TYPES : list (string * string).
Variable summarize : forall (template : string) (input_documents : Docs),
    exn + string.

Inductive summary_action :=
| chain_call (template : string)
| setSummary (s : list (string * tree))
| to_catch (e : exn).

(** [t === s] for a string [s]. *)
Definition is_string (t : tree) (s : string) : bool :=
  match t with
  | TStr x => String.eqb x s
  | _ => false
  end.

(** [SUPPORTED_SUMMARY_TYPES.find((type) => type.type === t)?.template] *)
Definition template_of (t : tree) : option string :=
  match List.find (fun entry => is_string t (fst entry)) SUPPORTED_SUMMARY_TYPES with
  | Some entry => Some (snd entry)
  | None => None
  end.

(** [summarizeCurrentPage()]: the chain calls it makes, the summary it
    sets, and the error it hands to the handler the post leaves out. *)
Definition summarizeCurrentPage (loading : bool) (summary : list (string * tree))
    (tabs : exn + list tab)
    (sendMessage : nat -> GetPageContentRequest
                   -> exn + option GetPageContentResponse)
  : list summary_action :=
  if loading || truthy (prop "content" summary) then []
  else
    match snd (getCurrentPageContent tabs sendMessage) with
    | Throw e => [to_catch e]
    | Return None => []
    | Return (Some response) =>
        match createDocuments 4000 None [pageContent response] with
        | inl e => [to_catch e]
        | inr docs =>
            match template_of (prop "type" summary) with
            | None => []
            | Some template =>
                if String.eqb template "" then []
                else
                  match summarize template docs with
                  | inl e => [chain_call template; to_catch e]
                  | inr response_text =>
                      [ chain_call template;
                        setSummary (obj_set "content" (TStr response_text) summary) ]
                  end
            end
        end
    end.

End Effects.

End PageChat.

(** ** Induction over page elements *)

Section ElementInd.
Variable P : PageChat.element -> Prop.
Hypothesis HElement :
  forall tag txt cs, Forall P cs -> P (PageChat.Element tag txt cs).

Fixpoint element_nested_ind (e : PageChat.element) : P e :=
  match e with
  | PageChat.Element tag txt cs =>
      HElement tag txt cs
        ((fix go (l : list PageChat.element) : Forall P l :=
            match l with
            | [] => @List.Forall_nil _ P
            | x :: l' => @List.Forall_cons _ P x l' (element_nested_ind x) (go l')
            end) cs)
  end.
End ElementInd.

(** * Properties *)

(** ** Reading back is stable under more fuel and a longer heap *)

Lemma reify_mono (n : nat) :
  forall (h : heap) (v : value) (t : tree),
    reify n h v = Some t ->
    forall (n' : nat) (k : heap), n <= n' -> reify n' (h ++ k) v = Some t.
Proof.
  induction n as [|n IH]; intros h v t Hr n' k Hle.
  - destruct v; try (destruct n'; exact Hr). discriminate Hr.
  - destruct v; try (destruct n'; exact Hr).
    destruct n' as [|n']; [lia|].
    simpl in Hr |- *.
    destruct (h !! l) as [o|] eqn:Hl; [|discriminate Hr].
    rewrite (lookup_app_l_Some _ _ _ _ Hl).
    destruct o as [ps|vs].
    + destruct (mapM (fun kv => pair kv.1 <$> reify n h kv.2) ps)
        as [tps|] eqn:Hm; [|discriminate Hr].
      apply mapM_Some in Hm.
      assert (Hm' : mapM (fun kv => pair kv.1 <$> reify n' (h ++ k) kv.2) ps
                    = Some tps).
      { apply mapM_Some. eapply Forall2_impl; [exact Hm|].
        intros [key v] kt Hkv. simpl in Hkv |- *.
        destruct (reify n h v) as [t'|] eqn:Hv; [|discriminate Hkv].
        rewrite (IH _ _ _ Hv n' k); [exact Hkv | lia]. }
      rewrite Hm'. exact Hr.
    + destruct (mapM (reify n h) vs) as [ts|] eqn:Hm; [|discriminate Hr].
      apply mapM_Some in Hm.
      assert (Hm' : mapM (reify n' (h ++ k)) vs = Some ts).
      { apply mapM_Some. eapply Forall2_impl; [exact Hm|].
        intros v t' Hv. apply IH; [exact Hv | lia]. }
      rewrite Hm'. exact Hr.
Qed.

(** ** Literals build their value, whatever the world *)

Lemma reify_grow (h k : heap) (v : value) (t : tree) :
  reify (S (length h)) h v = Some t ->
  reify (S (length (h ++ k))) (h ++ k) v = Some t.
Proof.
  intros H. apply (reify_mono _ _ _ _ H). rewrite length_app. lia.
Qed.

Lemma reads_grow (h k : heap) kv kt : reads h kv kt -> reads (h ++ k) kv kt.
Proof. intros [Hk Hr]. split; [exact Hk | now apply reify_grow]. Qed.

Lemma obj_set_reads (h : heap) (k : string) (v : value) (t : tree) acc tacc :
  reify (S (length h)) h v = Some t ->
  Forall2 (reads h) acc tacc ->
  Forall2 (reads h) (obj_set k v acc) (obj_set k t tacc).
Proof.
  intros Hv HF. induction HF as [|[k1 v1] [k2 t2] acc tacc [Hk Hr] HF IH].
  - constructor; [split; [reflexivity | exact Hv] | constructor].
  - simpl in Hk. subst k2. simpl.
    destruct (String.eqb k k1).
    + constructor; [split; [reflexivity | exact Hv] | exact HF].
    + constructor; [split; [reflexivity | exact Hr] | exact IH].
Qed.

Lemma state_eta (s : state) : State (st_heap s ++ []) (st_trace s ++ []) = s.
Proof. destruct s; simpl; now rewrite !app_nil_r. Qed.

Lemma elems_build (rho : env) (es : list expr) :
  Forall (fun e => literal e = true -> builds rho e) es ->
  forallb literal es = true ->
  forall s : state, exists (hs : heap) (tr : list event) (vs : list value),
    (forall w, eval_elems (eval rho) es w s
               = (State (st_heap s ++ hs) (st_trace s ++ tr), inr vs))
    /\ quiet tr
    /\ Forall2 (fun v e => reify (S (length (st_heap s ++ hs)))
                                 (st_heap s ++ hs) v = Some (tree_of e)) vs es.
Proof.
  induction 1 as [|e es He _ IH]; intros Hlit s.
  - exists [], [], []. split; [|split; constructor].
    intros w. simpl. unfold ret. now rewrite state_eta.
  - simpl in Hlit. apply andb_prop in Hlit as [Hl1 Hl2].
    destruct (He Hl1 s) as (h1 & t1 & v & Hev & Hq1 & Hr1).
    destruct (IH Hl2 (State (st_heap s ++ h1) (st_trace s ++ t1)))
      as (h2 & t2 & vs & Hes & Hq2 & Hr2).
    simpl in Hes, Hr2.
    exists (h1 ++ h2), (t1 ++ t2), (v :: vs). split; [|split].
    + intros w. simpl. unfold bind. rewrite Hev, Hes. unfold ret.
      now rewrite !app_assoc.
    + apply Forall_app; split; assumption.
    + rewrite app_assoc. constructor; [|exact Hr2].
      now apply reify_grow.
Qed.

Lemma props_build (rho : env) (ps : list (string * expr)) :
  Forall (fun kv => literal kv.2 = true -> builds rho kv.2) ps ->
  forallb (fun kv => literal kv.2) ps = true ->
  forall (s : state) acc tacc,
    Forall2 (reads (st_heap s)) acc tacc ->
    exists (hs : heap) (tr : list event) (kvs : list (string * value)),
      (forall w, eval_props (eval rho) ps acc w s
                 = (State (st_heap s ++ hs) (st_trace s ++ tr), inr kvs))
      /\ quiet tr
      /\ Forall2 (reads (st_heap s ++ hs)) kvs
           (fold_left (fun a kv => obj_set kv.1 (tree_of kv.2) a) ps tacc).
Proof.
  induction 1 as [|[k e] ps He _ IH]; intros Hlit s acc tacc Hacc.
  - exists [], [], acc. split; [|split; [constructor|]].
    + intros w. simpl. unfold ret. now rewrite state_eta.
    + simpl. now rewrite app_nil_r.
  - simpl in Hlit, He. apply andb_prop in Hlit as [Hl1 Hl2].
    destruct (He Hl1 s) as (h1 & t1 & v & Hev & Hq1 & Hr1).
    destruct (IH Hl2 (State (st_heap s ++ h1) (st_trace s ++ t1))
                 (obj_set k v acc) (obj_set k (tree_of e) tacc))
      as (h2 & t2 & kvs & Hes & Hq2 & Hr2).
    { simpl. apply obj_set_reads; [exact Hr1|].
      eapply Forall2_impl; [exact Hacc|]. intros; now apply reads_grow. }
    simpl in Hes, Hr2.
    exists (h1 ++ h2), (t1 ++ t2), kvs. split; [|split].
    + intros w. simpl. unfold bind. rewrite Hev, Hes.
      now rewrite !app_assoc.
    + apply Forall_app; split; assumption.
    + rewrite app_assoc. exact Hr2.
Qed.

Lemma quiet_snoc_new (tr : list event) (l : nat) :
  quiet tr -> quiet (tr ++ [EvNew l]).
Proof.
  intros H. apply Forall_app; split; [exact H|]. now repeat constructor.
Qed.

Lemma eval_literal (rho : env) (e : expr) : literal e = true -> builds rho e.
Proof.
  induction e using expr_nested_ind; intros Hlit; try discriminate Hlit.
  - intros st. exists [], [], (VStr s). split; [|split; [constructor|reflexivity]].
    intros w. simpl. unfold ret. now rewrite state_eta.
  - intros st. exists [], [], (VBool b). split; [|split; [constructor|reflexivity]].
    intros w. simpl. unfold ret. now rewrite state_eta.
  - intros st. simpl in Hlit.
    destruct (elems_build rho es H Hlit st) as (hs & tr & vs & Hev & Hq & Hr).
    exists (hs ++ [OArr vs]), (tr ++ [EvNew (length (st_heap st ++ hs))]),
           (VRef (length (st_heap st ++ hs))).
    split; [|split].
    + intros w. simpl. unfold bind. rewrite Hev. unfold alloc. simpl.
      now rewrite !app_assoc.
    + now apply quiet_snoc_new.
    + rewrite app_assoc. simpl. rewrite list_lookup_middle by reflexivity.
      assert (Hm : mapM (reify (length ((st_heap st ++ hs) ++ [OArr vs]))
                               ((st_heap st ++ hs) ++ [OArr vs])) vs
                   = Some (map tree_of es)).
      { apply mapM_Some. apply Forall2_fmap_r.
        eapply Forall2_impl; [exact Hr|]. intros v e Hv.
        apply (reify_mono _ _ _ _ Hv). rewrite !length_app. simpl. lia. }
      rewrite Hm. reflexivity.
  - intros st. simpl in Hlit.
    destruct (props_build rho ps H Hlit st [] []) as (hs & tr & kvs & Hev & Hq & Hr);
      [constructor|].
    exists (hs ++ [OObj kvs]), (tr ++ [EvNew (length (st_heap st ++ hs))]),
           (VRef (length (st_heap st ++ hs))).
    split; [|split].
    + intros w. simpl. unfold bind. rewrite Hev. unfold alloc. simpl.
      now rewrite !app_assoc.
    + now apply quiet_snoc_new.
    + rewrite app_assoc. simpl. rewrite list_lookup_middle by reflexivity.
      match goal with
      | |- context [mapM ?f kvs] =>
          assert (Hm : mapM f kvs
                       = Some (fold_left
                                 (fun a kv => obj_set kv.1 (tree_of kv.2) a) ps []))
      end.
      { apply mapM_Some. eapply Forall2_impl; [exact Hr|].
        intros [k v] [k' t] [Hk Hv]. cbn [fst snd] in Hk, Hv |- *. subst k'.
        rewrite (reify_mono _ _ _ _ Hv
                   (length ((st_heap st ++ hs) ++ [OObj kvs])) [OObj kvs]).
        - reflexivity.
        - rewrite !length_app. simpl. lia. }
      rewrite Hm. reflexivity.
Qed.

(** ** A module that imports an entry point and calls it on a literal *)

Lemma bind_named_keeps (x : string) (v : value) (url : string) (ns : list string) :
  ~ In x ns ->
  forall rho : env,
    obj_get x rho = Some v ->
    obj_get x (fold_left (fun r n => (n, VFun (ImportRef url n)) :: r) ns rho)
    = Some v.
Proof.
  induction ns as [|n ns IH]; intros Hx rho Hrho; [exact Hrho|].
  simpl. apply IH.
  - intros Hin. apply Hx. now right.
  - simpl. destruct (String.eqb_spec x n) as [->|_]; [|exact Hrho].
    exfalso. apply Hx. now left.
Qed.

Lemma calls_app (t1 t2 : list event) : calls (t1 ++ t2) = calls t1 ++ calls t2.
Proof.
  induction t1 as [|[l|l k v|f args h] t1 IH]; simpl; try exact IH.
  - reflexivity.
  - now rewrite IH.
Qed.

Lemma calls_quiet (tr : list event) : quiet tr -> calls tr = [].
Proof.
  induction 1 as [|[l|l k v|f args h] tr Hq _ IH]; simpl; try exact IH;
    [reflexivity | discriminate Hq].
Qed.

Lemma effects_quiet (tr : list event) : quiet tr -> List.filter is_effect tr = [].
Proof.
  induction 1 as [|ev tr Hq _ IH]; simpl; [reflexivity|]. now rewrite Hq.
Qed.

(** The state such a module ends in does not depend on the world: the
    literal is built, then the entry point is called on it, and that is
    all, whether the engine answers or throws. *)
Lemma entry_run (x : string) (ns : list string) (url : string) (e : expr) :
  ~ In x ns ->
  literal e = true ->
  exists (h : heap) (tr : list event) (v : value),
    (forall w, fst (run w (entry x ns url e))
               = State h (tr ++ [EvCall (ImportRef url "default") [v] h]))
    /\ quiet tr
    /\ reify (S (length h)) h v = Some (tree_of e).
Proof.
  intros Hx Hlit.
  set (rho := bind_import (Some x) ns url []).
  destruct (eval_literal rho e Hlit init) as (h & tr & v & Hev & Hq & Hr).
  simpl in Hev, Hr.
  exists h, tr, v. split; [|split; assumption].
  intros w. unfold run, entry. simpl. fold rho. unfold bind.
  assert (Hb : obj_get x rho = Some (VFun (ImportRef url "default"))).
  { unfold rho, bind_import. apply bind_named_keeps; [exact Hx|].
    simpl. now rewrite String.eqb_refl. }
  rewrite Hb. unfold ret at 1. rewrite Hev. unfold ret, call. simpl.
  now destruct (w_respond w _ _ _).
Qed.

Lemma entry_handed (x : string) (ns : list string) (url : string) (e : expr) :
  ~ In x ns ->
  literal e = true ->
  forall w, handed w (entry x ns url e)
            = [ (ImportRef url "default", [Some (tree_of e)]) ].
Proof.
  intros Hx Hlit w.
  destruct (entry_run x ns url e Hx Hlit) as (h & tr & v & Hrun & Hq & Hr).
  unfold handed. rewrite Hrun. cbn [st_trace].
  rewrite calls_app, (calls_quiet _ Hq). cbn [calls map app]. now rewrite Hr.
Qed.

Lemma entry_config (x : string) (ns : list string) (url : string) (e : expr) :
  ~ In x ns ->
  literal e = true ->
  forall w, config_of w (entry x ns url e) = Some (tree_of e).
Proof.
  intros Hx Hlit w. unfold config_of. now rewrite entry_handed.
Qed.

(** Both entry modules have that shape. *)
Lemma main_ts_entry :
  main_ts = entry "blog" ["ga"; "redirects"]
                  "https://deno.land/x/blog@0.3.3/blog.tsx" main_settings.
Proof. reflexivity. Qed.

Lemma part_000_entry :
  part_000 = entry "blog" []
                   "https://raw.githubusercontent.com/denoland/deno_blog/main/blog.tsx"
                   part_settings.
Proof. reflexivity. Qed.

Lemma blog_not_named_main : ~ In "blog" ["ga"; "redirects"].
Proof. simpl. intros [H|[H|[]]]; discriminate H. Qed.

Lemma blog_not_named_part : ~ In "blog" (@nil string).
Proof. intros []. Qed.

Lemma main_config_of (w : world) :
  config_of w main_ts = Some (tree_of main_settings).
Proof.
  rewrite main_ts_entry. apply entry_config;
    [exact blog_not_named_main | reflexivity].
Qed.

Lemma part_config_of (w : world) :
  config_of w part_000 = Some (tree_of part_settings).
Proof.
  rewrite part_000_entry. apply entry_config;
    [exact blog_not_named_part | reflexivity].
Qed.

(** ** The configuration literal *)

(** C1. In the record each entry module hands to [blog], [links] is exactly
    the sequence of the Email entry followed by the Github entry. *)
Theorem links_email_then_github (w : world) :
  exists c1 c2 : tree,
    config_of w main_ts = Some c1 /\ config_of w part_000 = Some c2
    /\ field "links" c1
       = Some (TArr [ TObj [ ("title", TStr "Email");
                             ("url", TStr "mailto:hegystyle@gmail.com") ];
                      TObj [ ("title", TStr "Github");
                             ("url", TStr "https://github.com/HenokT") ] ])
    /\ field "links" c2 = field "links" c1.
Proof.
  exists (tree_of main_settings), (tree_of part_settings).
  split; [apply main_config_of|]. split; [apply part_config_of|].
  split; reflexivity.
Qed.

(** C2. [title] and [author] of the record handed over are both the string
    "Henok Tadesse", in either entry module. *)
Theorem title_and_author (w : world) :
  exists c1 c2 : tree,
    config_of w main_ts = Some c1 /\ config_of w part_000 = Some c2
    /\ field "title" c1 = Some (TStr "Henok Tadesse")
    /\ field "author" c1 = Some (TStr "Henok Tadesse")
    /\ field "title" c2 = Some (TStr "Henok Tadesse")
    /\ field "author" c2 = Some (TStr "Henok Tadesse").
Proof.
  exists (tree_of main_settings), (tree_of part_settings).
  split; [apply main_config_of|]. split; [apply part_config_of|].
  repeat split; reflexivity.
Qed.

(** C3, as stated, fails on [src/main.ts]: the record it hands over has no
    [middlewares] field at all, so the field is not an empty sequence. *)
Lemma main_ts_middlewares_not_empty_sequence :
  ~ (exists c : tree,
       config_of silent main_ts = Some c
       /\ field "middlewares" c = Some (TArr [])).
Proof.
  intros (c & Hc & Hf).
  rewrite main_config_of in Hc. injection Hc as <-. discriminate Hf.
Qed.

(** C3, amended. No middleware is active in either record: [part_000] sets
    [middlewares] to the empty sequence, [main.ts] leaves the field unset,
    and no imported function occurs anywhere in either record. *)
Theorem no_middleware_active (w : world) :
  exists c1 c2 : tree,
    config_of w main_ts = Some c1 /\ config_of w part_000 = Some c2
    /\ field "middlewares" c1 = None
    /\ field "middlewares" c2 = Some (TArr [])
    /\ no_handle c1 = true /\ no_handle c2 = true.
Proof.
  exists (tree_of main_settings), (tree_of part_settings).
  split; [apply main_config_of|]. split; [apply part_config_of|].
  repeat split; reflexivity.
Qed.

(** ** Effects of a run *)

Lemma main_ts_state (w : world) : fst (run w main_ts) = fst (run silent main_ts).
Proof. destruct w as [a e r]. cbv. now destruct (r _ _ _). Qed.

Lemma part_000_state (w : world) :
  fst (run w part_000) = fst (run silent part_000).
Proof. destruct w as [a e r]. cbv. now destruct (r _ _ _). Qed.

(** C5. The side effects of a run of either entry module are one call of
    the imported [blog] on the configuration record, and nothing else. *)
Theorem only_effect_is_one_call (w : world) :
  exists (h1 h2 : heap) (v1 v2 : value),
    List.filter is_effect (st_trace (fst (run w main_ts)))
    = [EvCall blog_0_3_3 [v1] h1]
    /\ reify (S (length h1)) h1 v1 = Some (tree_of main_settings)
    /\ List.filter is_effect (st_trace (fst (run w part_000)))
       = [EvCall blog_github_main [v2] h2]
    /\ reify (S (length h2)) h2 v2 = Some (tree_of part_settings).
Proof.
  destruct (entry_run "blog" ["ga"; "redirects"]
              "https://deno.land/x/blog@0.3.3/blog.tsx" main_settings
              blog_not_named_main eq_refl) as (h1 & t1 & v1 & Hrun1 & Hq1 & Hr1).
  destruct (entry_run "blog" []
              "https://raw.githubusercontent.com/denoland/deno_blog/main/blog.tsx"
              part_settings blog_not_named_part eq_refl)
    as (h2 & t2 & v2 & Hrun2 & Hq2 & Hr2).
  exists h1, h2, v1, v2.
  rewrite main_ts_entry, part_000_entry, Hrun1, Hrun2. cbn [st_trace].
  rewrite !List.filter_app, (effects_quiet _ Hq1), (effects_quiet _ Hq2).
  repeat split; assumption.
Qed.

(** C6. In a run of either entry module the configuration record is built
    once, and no property of any object is written, before or after the
    record is handed over. *)
Theorem config_built_once_never_written (w : world) :
  built_once_never_written (tree_of main_settings) (fst (run w main_ts))
  /\ built_once_never_written (tree_of part_settings) (fst (run w part_000)).
Proof.
  rewrite main_ts_state, part_000_state. split.
  - exists [EvNew 0; EvNew 1; EvNew 2; EvNew 3], blog_0_3_3, 3.
    repeat split.
    intros l' Hl'.
    destruct l' as [|[|[|[|l']]]]; try reflexivity;
      vm_compute in Hl'; discriminate Hl'.
  - exists [EvNew 0; EvNew 1; EvNew 2; EvNew 3; EvNew 4], blog_github_main, 4.
    repeat split.
    intros l' Hl'.
    destruct l' as [|[|[|[|[|l']]]]]; try reflexivity;
      vm_compute in Hl'; discriminate Hl'.
Qed.

(** C7. The final state of a run, and with it the record handed over, is the
    same in any two worlds: command line, environment and the engine's
    answers play no part. *)
Theorem config_same_in_every_world (w1 w2 : world) :
  fst (run w1 main_ts) = fst (run w2 main_ts)
  /\ fst (run w1 part_000) = fst (run w2 part_000)
  /\ config_of w1 main_ts = config_of w2 main_ts
  /\ config_of w1 part_000 = config_of w2 part_000
  /\ config_of w1 main_ts = Some (tree_of main_settings)
  /\ config_of w1 part_000 = Some (tree_of part_settings).
Proof.
  rewrite (main_ts_state w1), (main_ts_state w2).
  rewrite (part_000_state w1), (part_000_state w2).
  rewrite !main_config_of, !part_config_of. repeat split.
Qed.

(** C8. Evaluating either configuration literal returns a value, never an
    error, from any state, in any world and under any bindings. *)
Theorem settings_construction_never_fails (rho : env) (w : world) (s : state) :
  (exists (s' : state) (v : value), eval rho main_settings w s = (s', inr v))
  /\ (exists (s' : state) (v : value), eval rho part_settings w s = (s', inr v)).
Proof.
  split.
  - destruct (eval_literal rho main_settings eq_refl s) as (h & t & v & Hev & _).
    eexists _, v. apply Hev.
  - destruct (eval_literal rho part_settings eq_refl s) as (h & t & v & Hev & _).
    eexists _, v. apply Hev.
Qed.

(** ** The two entry modules side by side *)

(** C9. Each entry module calls its [blog] once, and the two records agree
    on [title], [author], [avatar], [avatarClass] and [links]. *)
Theorem entry_modules_agree (w : world) :
  exists c1 c2 : tree,
    handed w main_ts = [ (blog_0_3_3, [Some c1]) ]
    /\ handed w part_000 = [ (blog_github_main, [Some c2]) ]
    /\ Forall (fun k => field k c1 = field k c2 /\ field k c1 <> None)
              [ "title"; "author"; "avatar"; "avatarClass"; "links" ].
Proof.
  exists (tree_of main_settings), (tree_of part_settings).
  split; [|split].
  - rewrite main_ts_entry.
    apply entry_handed; [exact blog_not_named_main | reflexivity].
  - rewrite part_000_entry.
    apply entry_handed; [exact blog_not_named_part | reflexivity].
  - repeat constructor; discriminate.
Qed.

(** C10. The two records differ in exactly four fields: [description],
    [readtime] and [middlewares], set by [part_000] only, and [background],
    set by [main.ts] only. *)
Theorem entry_modules_differ (w : world) :
  exists c1 c2 : tree,
    config_of w main_ts = Some c1 /\ config_of w part_000 = Some c2
    /\ (forall k : string,
          field k c1 <> field k c2
          <-> In k [ "description"; "readtime"; "middlewares"; "background" ])
    /\ field "description" c2
       = Some (TStr "A personal blog where I share what I learn as a sofware developer.")
    /\ field "readtime" c2 = Some (TBool true)
    /\ field "middlewares" c2 = Some (TArr [])
    /\ field "description" c1 = None
    /\ field "readtime" c1 = None
    /\ field "middlewares" c1 = None
    /\ field "background" c1 = Some (TStr "#f9f9f9")
    /\ field "background" c2 = None.
Proof.
  exists (tree_of main_settings), (tree_of part_settings).
  split; [apply main_config_of|]. split; [apply part_config_of|].
  split; [|repeat split; reflexivity].
  intros k.
  key_case k "title"; [split; [intros H; now elim H | simpl; intuition discriminate]|].
  key_case k "author"; [split; [intros H; now elim H | simpl; intuition discriminate]|].
  key_case k "avatar"; [split; [intros H; now elim H | simpl; intuition discriminate]|].
  key_case k "avatarClass"; [split; [intros H; now elim H | simpl; intuition discriminate]|].
  key_case k "links"; [split; [intros H; now elim H | simpl; intuition discriminate]|].
  key_case k "description"; [split; [intros _; simpl; tauto | intros _; discriminate]|].
  key_case k "readtime"; [split; [intros _; simpl; tauto | intros _; discriminate]|].
  key_case k "middlewares"; [split; [intros _; simpl; tauto | intros _; discriminate]|].
  key_case k "background"; [split; [intros _; simpl; tauto | intros _; discriminate]|].
  split.
  - intros H. elim H. simpl.
    repeat match goal with
           | Hn : k <> ?lit |- _ =>
               apply String.eqb_neq in Hn; rewrite Hn; clear Hn
           end.
    reflexivity.
  - simpl. intuition congruence.
Qed.

(** ** Front matter of the content files *)

Example jetpack_compose_front_matter (body : list string) :
  parse_front_matter (jetpack_compose_md ++ body)
  = Some (FrontMatter "An Introduction to Android Jetpack Compose"
                      (Date 2022 6 10) None).
Proof. reflexivity. Qed.

Example page_chat_front_matter (body : list string) :
  parse_front_matter (page_chat_md ++ body)
  = Some (FrontMatter
            "Enhance Your Web Browsing Experience with Our Chrome Extension: PageChat"
            (Date 2023 6 8)
            (Some "/enhance-your-web-browsing-experience-with-pagechat-our-chrome-extension-and-how-we-built-it")).
Proof. reflexivity. Qed.

Example promise_all_settled_front_matter (body : list string) :
  parse_front_matter (promise_all_settled_md ++ body)
  = Some (FrontMatter "A better Promise.all" (Date 2022 6 22) None).
Proof. reflexivity. Qed.

Example part_001_front_matter (body : list string) :
  parse_front_matter (part_001 ++ body)
  = Some (FrontMatter
            "Remembering the previous value of a prop or a state while using React Hooks"
            (Date 2019 6 15) None).
Proof. reflexivity. Qed.

(** C4. Whatever body follows, the front matter of every content file parses
    to a record with a non-empty title and a valid calendar date. *)
Theorem front_matter_well_formed :
  Forall (fun head : list string =>
            forall body : list string,
              exists fm : front_matter,
                parse_front_matter (head ++ body) = Some fm
                /\ fm_title fm <> ""
                /\ valid_date (fm_publish_date fm) = true)
         content_files.
Proof.
  repeat constructor; intros body; eexists;
    (split; [reflexivity | split; [discriminate | reflexivity]]).
Qed.

(** ** Sanity of the date and block checks *)

Example leap_years :
  leap 2000 = true /\ leap 1900 = false /\ leap 2024 = true /\ leap 2023 = false.
Proof. repeat split. Qed.

Example impossible_dates_rejected :
  valid_date (Date 2023 2 29) = false
  /\ valid_date (Date 2022 13 1) = false
  /\ valid_date (Date 2022 6 0) = false
  /\ valid_date (Date 2022 6 31) = false.
Proof. repeat split. Qed.

Example unclosed_block_rejected :
  parse_front_matter ["---"; "title: A better Promise.all"; "publish_date: 2022-06-22"]
  = None.
Proof. reflexivity. Qed.

Example missing_title_rejected :
  parse_front_matter ["---"; "publish_date: 2022-06-22"; "---"] = None.
Proof. reflexivity. Qed.

(** ** The contrast modules are told apart *)

(** With the commented-out entries active, [ga] and [redirects] are called
    before [blog], and the record carries their handles. *)
Example middlewares_active_calls :
  map fst (handed answering main_ts_middlewares_active)
  = [ ImportRef "https://deno.land/x/blog@0.3.3/blog.tsx" "ga";
      ImportRef "https://deno.land/x/blog@0.3.3/blog.tsx" "redirects";
      blog_0_3_3 ]
  /\ (exists c : tree,
        last (handed answering main_ts_middlewares_active)
        = Some (blog_0_3_3, [Some c])
        /\ no_handle c = false).
Proof. split; [reflexivity | eexists; split; reflexivity]. Qed.

(** If the engine throws inside [ga], [blog] is never reached. *)
Example middlewares_active_can_fail :
  snd (run silent main_ts_middlewares_active)
  = inl (Thrown (ImportRef "https://deno.land/x/blog@0.3.3/blog.tsx" "ga"))
  /\ length (handed silent main_ts_middlewares_active) = 1.
Proof. split; reflexivity. Qed.

Example write_after_handing_over_is_seen :
  forall cfg : tree,
    ~ built_once_never_written cfg (fst (run answering writes_after_handing_over)).
Proof.
  intros cfg (pre & f & l & _ & _ & _ & _ & _ & Hset). discriminate Hset.
Qed.

(** Two more cells read back as the record: it was not built once. *)
Example building_again_is_seen :
  ~ built_once_never_written (tree_of main_settings)
      (fst (run answering builds_three_times)).
Proof.
  intros (pre & f & l & _ & _ & _ & Hone & _).
  assert (H3 : 3 = l) by (apply Hone; reflexivity).
  assert (H7 : 7 = l) by (apply Hone; reflexivity).
  rewrite <- H3 in H7. discriminate H7.
Qed.

(** A second call is an event that is not an allocation. *)
Example handing_over_twice_is_seen :
  ~ built_once_never_written (tree_of main_settings)
      (fst (run answering calls_twice)).
Proof.
  intros (pre & f & l & _ & Hcall & _). discriminate Hcall.
Qed.

Example environment_read_is_seen :
  config_of answering title_from_environment
  <> config_of titled title_from_environment.
Proof. discriminate. Qed.

(** * Properties of the code shown in the posts *)

(** ** The hooks *)

(** X1. Rendered for one value after the other, [usePreviousValue] returns
    undefined on the first render and then, each time, the value of the
    render before. *)
Theorem usePreviousValue_returns_previous_render {A : Type} (values : list A) :
  Hooks.renders values None = take (length values) (None :: map Some values).
Proof.
  generalize (@None A) as ref_current.
  induction values as [|v vs IH]; intros r; [reflexivity|].
  simpl. f_equal. apply IH.
Qed.

(** After any render the cell holds the value just rendered, and so does
    the state. *)
Lemma after_slots {A : Type} `{EqDecision A} (initialValue : A)
    (evs : list Hooks.event) :
  snd (Hooks.after initialValue evs)
  = Hooks.Slots (Some (snd (fst (Hooks.after initialValue evs))))
                (Some (snd (fst (Hooks.after initialValue evs)))).
Proof.
  induction evs as [|ev evs IH] using rev_ind; [reflexivity|].
  unfold Hooks.after in *. rewrite fold_left_app. simpl.
  destruct (fold_left _ evs _) as [[prev cur] sl]. simpl in IH. subst sl.
  destruct ev as [x|]; simpl; [|reflexivity].
  destruct (decide (x = cur)); reflexivity.
Qed.

(** X2. When the setter is called with a value other than the current one,
    [useTraceableState] returns the old value as [prevValue] and the new one
    as [value], whatever happened to the component before. *)
Theorem useTraceableState_after_set {A : Type} `{EqDecision A}
    (initialValue : A) (evs : list Hooks.event) (x : A) :
  x <> snd (fst (Hooks.after initialValue evs)) ->
  fst (Hooks.after initialValue (evs ++ [Hooks.SetValue x]))
  = (Some (snd (fst (Hooks.after initialValue evs))), x).
Proof.
  intros Hx. pose proof (after_slots initialValue evs) as Hs.
  unfold Hooks.after in *. rewrite fold_left_app. simpl.
  destruct (fold_left _ evs _) as [[prev cur] sl]. simpl in Hs, Hx |- *.
  subst sl. destruct (decide (x = cur)); [contradiction|reflexivity].
Qed.

Lemma useTraceableState_after_set_witness :
  2 <> snd (fst (Hooks.after 0 [Hooks.SetValue 1; Hooks.Rerender]))
  /\ fst (Hooks.after 0 ([Hooks.SetValue 1; Hooks.Rerender] ++ [Hooks.SetValue 2]))
     = (Some 1, 2).
Proof.
  assert (Hx : 2 <> snd (fst (Hooks.after 0 [Hooks.SetValue 1; Hooks.Rerender])))
    by (vm_compute; discriminate).
  split; [exact Hx|].
  exact (useTraceableState_after_set 0 [Hooks.SetValue 1; Hooks.Rerender] 2 Hx).
Defined.

(** X3. When the component is rendered again without a state change,
    [prevValue] is the current value: the hook remembers the previous
    render, not the previous different value. *)
Theorem useTraceableState_after_rerender {A : Type} `{EqDecision A}
    (initialValue : A) (evs : list Hooks.event) :
  fst (Hooks.after initialValue (evs ++ [Hooks.Rerender]))
  = (Some (snd (fst (Hooks.after initialValue evs))),
     snd (fst (Hooks.after initialValue evs))).
Proof.
  pose proof (after_slots initialValue evs) as Hs.
  unfold Hooks.after in *. rewrite fold_left_app. simpl.
  destruct (fold_left _ evs _) as [[prev cur] sl]. simpl in Hs |- *.
  now subst sl.
Qed.

(** ** The Compose card *)

Lemma click_title_negates (header_rest : Compose.Post -> list (Compose.Node (bool -> bool)))
    (post : Compose.Post) (modifier : list (Compose.ModifierElement (bool -> bool)))
    (isExpanded : bool) :
  Compose.click_title header_rest post modifier isExpanded = negb isExpanded.
Proof. reflexivity. Qed.

(** X4. After [n] clicks on its title a card shows the content of the post
    exactly when [n] is odd; it starts collapsed. *)
Theorem PostCard_expanded_after_clicks
    (header_rest : Compose.Post -> list (Compose.Node (bool -> bool)))
    (post : Compose.Post) (modifier : list (Compose.ModifierElement (bool -> bool)))
    (n : nat) :
  let isExpanded :=
    Nat.iter n (Compose.click_title header_rest post modifier) false in
  isExpanded = Nat.odd n
  /\ Compose.PostCard header_rest post modifier isExpanded
     = Compose.Column modifier Compose.Top
         (Compose.PostHeader header_rest post negb (Nat.odd n)
          :: (if Nat.odd n
              then [Compose.Text (Compose.content post) Compose.body1
                                 [Compose.padding 0 8 0 0]]
              else [])).
Proof.
  assert (Hn : Nat.iter n (Compose.click_title header_rest post modifier) false
               = Nat.odd n).
  { induction n as [|n IH]; [reflexivity|].
    rewrite Nat.iter_succ, IH, click_title_negates, Nat.odd_succ.
    now rewrite <- Nat.negb_odd. }
  simpl. rewrite Hn. split; reflexivity.
Qed.


(** ** Settings *)

Lemma obj_get_obj_set {A : Type} (k k' : string) (v : A) (ps : list (string * A)) :
  obj_get k (obj_set k' v ps) = if String.eqb k k' then Some v else obj_get k ps.
Proof.
  induction ps as [|[k1 v1] ps IH]; simpl.
  - now destruct (String.eqb k k').
  - destruct (String.eqb_spec k' k1) as [->|Hk1]; simpl.
    + now destruct (String.eqb k k1).
    + rewrite IH. destruct (String.eqb_spec k k1) as [->|_]; [|reflexivity].
      destruct (String.eqb_spec k1 k') as [->|_]; [contradiction|reflexivity].
Qed.

(** X5. Saving the options sets [openAIApiKey] to the text typed and leaves
    every other setting as it was. *)
Theorem saveOptions_changes_only_the_key (settings : list (string * tree))
    (openAIApiKeyInputText k : string) :
  PageChat.prop k
    (PageChat.stored (PageChat.saveOptions settings openAIApiKeyInputText) settings)
  = if String.eqb k "openAIApiKey" then TStr openAIApiKeyInputText
    else PageChat.prop k settings.
Proof.
  unfold PageChat.prop. simpl. rewrite obj_get_obj_set.
  now destruct (String.eqb k "openAIApiKey").
Qed.

(** X6. Once the settings are loaded, the popup shows the options page
    after a save exactly when the key saved is empty, whatever the settings
    were before. *)
Theorem Popup_after_saveOptions (settings : list (string * tree))
    (openAIApiKeyInputText : string) :
  PageChat.Popup false
    (PageChat.stored (PageChat.saveOptions settings openAIApiKeyInputText) settings)
  = Some PageChat.Options
  <-> openAIApiKeyInputText = "".
Proof.
  unfold PageChat.Popup, PageChat.prop. simpl.
  rewrite obj_get_obj_set. simpl.
  destruct (String.eqb_spec openAIApiKeyInputText "") as [->|Hne]; simpl.
  - split; reflexivity.
  - split; [discriminate | contradiction].
Qed.

(** ** The response stream *)

Lemma append_empty_r (s : string) : s +:+ "" = s.
Proof.
  induction s as [|c s IH]; [reflexivity|].
  change (String c (s +:+ "") = String c s). now rewrite IH.
Qed.

Lemma append_assoc (a b c : string) : (a +:+ b) +:+ c = a +:+ (b +:+ c).
Proof.
  induction a as [|x a IH]; [reflexivity|].
  change (String x ((a +:+ b) +:+ c) = String x (a +:+ (b +:+ c))).
  now rewrite IH.
Qed.

Lemma concat_empty_cons (t : string) (ts : list string) :
  String.concat "" (t :: ts) = t +:+ String.concat "" ts.
Proof. destruct ts; [symmetry; apply append_empty_r | reflexivity]. Qed.

Lemma tokens_append (tokens : list string) (s : string) :
  PageChat.responseStream_after (map PageChat.NewToken tokens) s
  = s +:+ String.concat "" tokens.
Proof.
  revert s. induction tokens as [|t ts IH]; intros s.
  - simpl. now rewrite append_empty_r.
  - rewrite concat_empty_cons. cbn [map PageChat.responseStream_after fold_left].
    fold (PageChat.responseStream_after (map PageChat.NewToken ts)
            (PageChat.handleLLMNewToken t s)).
    rewrite IH. unfold PageChat.handleLLMNewToken. apply append_assoc.
Qed.

(** X7. The response stream holds the tokens received since the model last
    finished, in order, and nothing of what came before. *)
Theorem responseStream_is_tokens_since_end (before : list PageChat.llm_event)
    (tokens : list string) (responseStream : string) :
  PageChat.responseStream_after
    (before ++ PageChat.End_ :: map PageChat.NewToken tokens) responseStream
  = String.concat "" tokens.
Proof.
  unfold PageChat.responseStream_after. rewrite fold_left_app.
  cbn [fold_left]. unfold PageChat.handleLLMEnd at 1.
  apply (tokens_append tokens "").
Qed.

(** ** The chat history *)

Lemma questions_asked_app (a b : list PageChat.chat_action) :
  PageChat.questions_asked (a ++ b)
  = PageChat.questions_asked a ++ PageChat.questions_asked b.
Proof. unfold PageChat.questions_asked. apply flat_map_app. Qed.

(** One message to the retrieval chain: one call, with the question and the
    texts of the history; two messages more if it answers, none if not. *)
Lemma sendUserMessage_retrieval
    (call : PageChat.qa_call -> PageChat.exn + string) (userInput : string)
    (history : list PageChat.BaseChatMessage) :
  PageChat.questions_asked
    (fst (PageChat.sendUserMessage
            (PageChat.ConversationalRetrievalQAChain call) userInput history))
  = [PageChat.QaCall userInput (map PageChat.text history)]
  /\ snd (PageChat.sendUserMessage
            (PageChat.ConversationalRetrievalQAChain call) userInput history)
     = history
       ++ match call (PageChat.QaCall userInput (map PageChat.text history)) with
          | inr response_text =>
              [ PageChat.HumanChatMessage userInput;
                PageChat.AIChatMessage response_text ]
          | inl _ => []
          end.
Proof.
  unfold PageChat.sendUserMessage.
  destruct (call _); split; try reflexivity. simpl. now rewrite app_nil_r.
Qed.

Lemma conversation_cons (chain : PageChat.chain) (q : string)
    (qs : list string) (h : list PageChat.BaseChatMessage) :
  PageChat.conversation chain (q :: qs) h
  = (fst (PageChat.sendUserMessage chain q h)
     ++ fst (PageChat.conversation chain qs
               (snd (PageChat.sendUserMessage chain q h))),
     snd (PageChat.conversation chain qs
            (snd (PageChat.sendUserMessage chain q h)))).
Proof.
  simpl. destruct (PageChat.sendUserMessage chain q h) as [a1 h1]. simpl.
  now destruct (PageChat.conversation chain qs h1).
Qed.

(** X8. In a conversation with the retrieval chain that starts from an
    empty history every question is put to the chain, in order; afterwards
    the history holds, for each call that answered, the question followed
    by that answer, and nothing for a call that failed.  Without a chain
    nothing is asked and nothing is recorded. *)
Theorem conversation_records_each_exchange
    (call : PageChat.qa_call -> PageChat.exn + string) (inputs : list string) :
  let asked :=
    PageChat.questions_asked
      (fst (PageChat.conversation
              (PageChat.ConversationalRetrievalQAChain call) inputs [])) in
  map PageChat.question asked = inputs
  /\ snd (PageChat.conversation
            (PageChat.ConversationalRetrievalQAChain call) inputs [])
     = flat_map (fun c => match call c with
                          | inr response_text =>
                              [ PageChat.HumanChatMessage (PageChat.question c);
                                PageChat.AIChatMessage response_text ]
                          | inl _ => []
                          end)
                asked
  /\ PageChat.questions_asked
       (fst (PageChat.conversation PageChat.undefined_chain inputs [])) = []
  /\ snd (PageChat.conversation PageChat.undefined_chain inputs []) = [].
Proof.
  cbv zeta. split; [|split; [|split]].
  - generalize (@nil PageChat.BaseChatMessage) as h.
    induction inputs as [|q qs IH]; intros h; [reflexivity|].
    rewrite conversation_cons. cbn [fst].
    rewrite questions_asked_app, map_app.
    destruct (sendUserMessage_retrieval call q h) as [-> _].
    simpl. f_equal. apply IH.
  - assert (Hgen : forall h,
      snd (PageChat.conversation
             (PageChat.ConversationalRetrievalQAChain call) inputs h)
      = h ++ flat_map
               (fun c => match call c with
                         | inr response_text =>
                             [ PageChat.HumanChatMessage (PageChat.question c);
                               PageChat.AIChatMessage response_text ]
                         | inl _ => []
                         end)
               (PageChat.questions_asked
                  (fst (PageChat.conversation
                          (PageChat.ConversationalRetrievalQAChain call)
                          inputs h)))).
    { induction inputs as [|q qs IH]; intros h.
      - simpl. now rewrite app_nil_r.
      - rewrite conversation_cons. cbn [fst snd].
        rewrite questions_asked_app, flat_map_app, IH.
        destruct (sendUserMessage_retrieval call q h) as [-> ->].
        simpl. rewrite app_nil_r. now rewrite <- app_assoc. }
    apply (Hgen []).
  - generalize (@nil PageChat.BaseChatMessage) as h.
    induction inputs as [|q qs IH]; intros h; [reflexivity|].
    rewrite conversation_cons. cbn [fst].
    rewrite questions_asked_app. simpl. apply IH.
  - induction inputs as [|q qs IH]; [reflexivity|].
    rewrite conversation_cons. cbn [snd]. exact IH.
Qed.

(** X9. With its [k]-th question (counting from 0) the retrieval chain
    receives, as chat history, the texts of the history as the first [k]
    questions left it: the earlier exchanges that were answered, and not
    the question being asked. *)
Theorem chain_sees_earlier_exchanges
    (call : PageChat.qa_call -> PageChat.exn + string) (inputs : list string) :
  PageChat.questions_asked
    (fst (PageChat.conversation
            (PageChat.ConversationalRetrievalQAChain call) inputs []))
  = imap (fun k q =>
            PageChat.QaCall q
              (map PageChat.text
                 (snd (PageChat.conversation
                         (PageChat.ConversationalRetrievalQAChain call)
                         (take k inputs) []))))
         inputs.
Proof.
  generalize (@nil PageChat.BaseChatMessage) as h.
  induction inputs as [|q qs IH]; intros h; [reflexivity|].
  rewrite conversation_cons. cbn [fst].
  rewrite questions_asked_app.
  destruct (sendUserMessage_retrieval call q h) as [-> _].
  rewrite imap_cons. cbn [app]. apply (f_equal2 cons); [reflexivity|].
  rewrite IH. apply imap_ext. intros k x _. unfold compose.
  change (take (S k) (q :: qs)) with (q :: take k qs).
  rewrite conversation_cons. reflexivity.
Qed.

(** ** The message rows *)

(** X10. The message panel is rendered exactly when there is something to
    show: when rendered it has at least one row and starts with the rows of
    the history, in order; when not, the history is empty and so are the
    pending input, the response stream and the error. *)
Theorem Chatbot_panel_never_empty (history : list PageChat.BaseChatMessage)
    (userInputAwaitingResponse responseStream error : string) :
  match PageChat.Chatbot history userInputAwaitingResponse responseStream error with
  | Some rows =>
      rows <> []
      /\ take (length history) rows = map PageChat.ChatMessageRow history
  | None =>
      history = [] /\ userInputAwaitingResponse = ""
      /\ responseStream = "" /\ error = ""
  end.
Proof.
  unfold PageChat.Chatbot, PageChat.row_if.
  destruct history as [|m h].
  - destruct (String.eqb_spec userInputAwaitingResponse "") as [->|Ha];
      destruct (String.eqb_spec responseStream "") as [->|Hs];
      destruct (String.eqb_spec error "") as [->|He]; simpl;
      repeat split; discriminate.
  - cbn [length Nat.ltb Nat.leb orb]. split; [discriminate|].
    apply take_app_length'. now rewrite length_map.
Qed.

(** ** The content script *)

Lemma find_app {A : Type} (f : A -> bool) (l1 l2 : list A) :
  List.find f (l1 ++ l2)
  = match List.find f l1 with
    | Some x => Some x
    | None => List.find f l2
    end.
Proof.
  induction l1 as [|x l1 IH]; simpl; [reflexivity|].
  now destruct (f x).
Qed.

Lemma find_hd_filter {A : Type} (f : A -> bool) (l : list A) :
  List.find f l = head (List.filter f l).
Proof.
  induction l as [|x l IH]; simpl; [reflexivity|].
  now destruct (f x).
Qed.

(** [querySelector] finds the first element below, in document order. *)
Lemma querySelector_find (tag : string) (e : PageChat.element) :
  PageChat.querySelector tag e
  = List.find (fun x => String.eqb (PageChat.tagName x) tag)
              (PageChat.descendants e).
Proof.
  induction e as [t txt cs IH] using element_nested_ind.
  simpl. induction IH as [|c cs Hc _ IHcs]; [reflexivity|].
  simpl. destruct (String.eqb (PageChat.tagName c) tag); [reflexivity|].
  rewrite find_app, <- Hc, <- IHcs.
  now destruct (PageChat.querySelector tag c).
Qed.

(** X11. Asked for the page content, the content script answers with the
    text of the first [article] element of the page in document order; if
    the page has none, of the first [main] element; if it has neither, of
    the body.  To any other request it does not answer. *)
Theorem onMessage_primary_content (request : PageChat.GetPageContentRequest)
    (body : PageChat.element) :
  PageChat.onMessage request body
  = if String.eqb (PageChat.action request) "getPageContent"
    then Some (PageChat.Response
                 (PageChat.innerText
                    (hd body
                        (List.filter
                           (fun x => String.eqb (PageChat.tagName x) "article")
                           (PageChat.descendants body)
                         ++ List.filter
                              (fun x => String.eqb (PageChat.tagName x) "main")
                              (PageChat.descendants body)))))
    else None.
Proof.
  unfold PageChat.onMessage, PageChat.primaryContentElement.
  destruct (String.eqb (PageChat.action request) "getPageContent"); [|reflexivity].
  rewrite !querySelector_find, !find_hd_filter.
  destruct (List.filter _ (PageChat.descendants body)) as [|a l]; [|reflexivity].
  simpl. now destruct (List.filter _ (PageChat.descendants body)).
Qed.

(** ** Getting the page content *)

(** When the active tab has a usable id and the content script of the page
    is the one that answers, [getCurrentPageContent] returns the text of the
    page's primary content element and logs nothing: the request it sends
    is the one the script answers. *)
Example getCurrentPageContent_reaches_content_script (n : nat)
    (rest : list PageChat.tab) (body : PageChat.element) :
  PageChat.getCurrentPageContent
    (inr (PageChat.Tab (Some (S n)) :: rest))
    (fun _ request => inr (PageChat.onMessage request body))
  = ([], PageChat.Return
           (Some (PageChat.Response
                    (PageChat.innerText (PageChat.primaryContentElement body))))).
Proof. reflexivity. Qed.

(** X12. [getCurrentPageContent] throws in three cases only: the tab query
    failed (its error passes through, nothing is logged); the query found no
    tab (reading [id] of undefined, nothing is logged); or sending the
    message failed, and then the cause is logged and replaced by the error
    "Unable to get page content". *)
Theorem getCurrentPageContent_throws
    (tabs : PageChat.exn + list PageChat.tab)
    (sendMessage : nat -> PageChat.GetPageContentRequest
                   -> PageChat.exn + option PageChat.GetPageContentResponse)
    (logged : list PageChat.exn) (e : PageChat.exn) :
  PageChat.getCurrentPageContent tabs sendMessage = (logged, PageChat.Throw e) ->
  (tabs = inl e /\ logged = [])
  \/ (tabs = inr [] /\ logged = [] /\ e = PageChat.undefined_read "id")
  \/ (exists (tab : PageChat.tab) (rest : list PageChat.tab) (tab_id : nat)
             (cause : PageChat.exn),
        tabs = inr (tab :: rest)
        /\ PageChat.id tab = Some (S tab_id)
        /\ sendMessage (S tab_id) (PageChat.Request "getPageContent") = inl cause
        /\ logged = [cause]
        /\ e = PageChat.Exn "Error" "Unable to get page content").
Proof.
  unfold PageChat.getCurrentPageContent. intros Hg.
  destruct tabs as [e0|[|tab rest]].
  - left. injection Hg as <- <-. now split.
  - right; left. injection Hg as <- <-. now repeat split.
  - right; right.
    destruct (PageChat.id tab) as [[|tab_id]|] eqn:Hid; try discriminate Hg.
    destruct (sendMessage (S tab_id) _) as [cause|response] eqn:Hs;
      [|discriminate Hg].
    injection Hg as <- <-. exists tab, rest, tab_id, cause. now repeat split.
Qed.

Lemma getCurrentPageContent_throws_witness :
  PageChat.getCurrentPageContent
    (inr [PageChat.Tab (Some 7)])
    (fun _ _ => inl (PageChat.Exn "Error" "Could not establish connection."))
  = ([PageChat.Exn "Error" "Could not establish connection."],
     PageChat.Throw (PageChat.Exn "Error" "Unable to get page content"))
  /\ ((@inr PageChat.exn _ [PageChat.Tab (Some 7)]
       = inl (PageChat.Exn "Error" "Unable to get page content")
       /\ [PageChat.Exn "Error" "Could not establish connection."] = [])
      \/ (@inr PageChat.exn _ [PageChat.Tab (Some 7)] = inr []
          /\ [PageChat.Exn "Error" "Could not establish connection."] = []
          /\ PageChat.Exn "Error" "Unable to get page content"
             = PageChat.undefined_read "id")
      \/ (exists (tab : PageChat.tab) (rest : list PageChat.tab) (tab_id : nat)
                 (cause : PageChat.exn),
            @inr PageChat.exn _ [PageChat.Tab (Some 7)] = inr (tab :: rest)
            /\ PageChat.id tab = Some (S tab_id)
            /\ (fun (_ : nat) (_ : PageChat.GetPageContentRequest) =>
                  @inl _ (option PageChat.GetPageContentResponse)
                       (PageChat.Exn "Error" "Could not establish connection."))
                 (S tab_id) (PageChat.Request "getPageContent") = inl cause
            /\ [PageChat.Exn "Error" "Could not establish connection."] = [cause]
            /\ PageChat.Exn "Error" "Unable to get page content"
               = PageChat.Exn "Error" "Unable to get page content")).
Proof.
  split; [reflexivity|].
  exact (getCurrentPageContent_throws
           (inr [PageChat.Tab (Some 7)])
           (fun _ _ => inl (PageChat.Exn "Error" "Could not establish connection."))
           [PageChat.Exn "Error" "Could not establish connection."]
           (PageChat.Exn "Error" "Unable to get page content") eq_refl).
Defined.

(** ** Loading the page into the vector store *)

(** X13. The vector store is set only in page mode and only if the cleanup
    of the effect had not run when the store was ready. *)
Theorem store_set_only_before_cleanup {Docs Store : Type}
    (createDocuments : nat -> option nat -> list string -> PageChat.exn + Docs)
    (fromDocuments : Docs -> tree -> PageChat.exn + Store)
    (chatMode : string) (tabs : PageChat.exn + list PageChat.tab)
    (sendMessage : nat -> PageChat.GetPageContentRequest
                   -> PageChat.exn + option PageChat.GetPageContentResponse)
    (openAIApiKey : tree) (ignore : bool) (v : Store) :
  In (PageChat.setPageContentVectorStore v)
     (PageChat.page_effect createDocuments fromDocuments chatMode tabs
                           sendMessage openAIApiKey ignore) ->
  chatMode = "with-page" /\ ignore = false.
Proof.
  unfold PageChat.page_effect, PageChat.loadPageIntoVectorStore.
  destruct (String.eqb_spec chatMode "with-page") as [->|_]; [|intros []].
  intros Hin. split; [reflexivity|].
  destruct (PageChat.getCurrentPageContent tabs sendMessage) as [logged got].
  apply in_app_or in Hin as [Hin|Hin].
  { apply in_map_iff in Hin as (e & He & _). discriminate He. }
  unfold PageChat.caught in Hin.
  destruct got as [[response|]|e]; simpl in Hin;
    try (destruct Hin as [Hin|[Hin|[]]]; discriminate Hin); try contradiction.
  destruct (String.eqb (PageChat.pageContent response) ""); [contradiction|].
  destruct (createDocuments _ _ _) as [e|docs]; simpl in Hin;
    [destruct Hin as [Hin|[Hin|[]]]; discriminate Hin|].
  destruct (fromDocuments docs openAIApiKey) as [e|vs]; simpl in Hin;
    [destruct Hin as [Hin|[Hin|[]]]; discriminate Hin|].
  now destruct ignore.
Qed.

Lemma store_set_only_before_cleanup_witness :
  In (PageChat.setPageContentVectorStore 1)
     (PageChat.page_effect (fun _ _ texts => inr texts) (fun _ _ => inr 1)
        "with-page" (inr [PageChat.Tab (Some 7)])
        (fun _ _ => inr (Some (PageChat.Response "text of the page")))
        (TStr "key") false)
  /\ ("with-page" = "with-page" /\ false = false).
Proof.
  assert (Hin : In (PageChat.setPageContentVectorStore 1)
     (PageChat.page_effect (fun _ _ texts => inr texts) (fun _ _ => inr 1)
        "with-page" (inr [PageChat.Tab (Some 7)])
        (fun _ _ => inr (Some (PageChat.Response "text of the page")))
        (TStr "key") false)) by (left; reflexivity).
  split; [exact Hin|].
  exact (store_set_only_before_cleanup
           (fun _ _ texts => inr texts) (fun _ _ => inr 1)
           "with-page" (inr [PageChat.Tab (Some 7)])
           (fun _ _ => inr (Some (PageChat.Response "text of the page")))
           (TStr "key") false 1 Hin).
Defined.

(** X14. When sending the message to the page fails, the effect logs the
    cause and the replacement error and sets the error state, whether or not
    its cleanup has run; the message panel then ends with a bot row that
    carries the prefix three times. *)
Theorem failed_page_load_is_shown {Docs Store : Type}
    (createDocuments : nat -> option nat -> list string -> PageChat.exn + Docs)
    (fromDocuments : Docs -> tree -> PageChat.exn + Store)
    (n : nat) (rest : list PageChat.tab) (cause : PageChat.exn)
    (openAIApiKey : tree) (ignore : bool)
    (history : list PageChat.BaseChatMessage) :
  let actions :=
    PageChat.page_effect createDocuments fromDocuments "with-page"
      (inr (PageChat.Tab (Some (S n)) :: rest)) (fun _ _ => inl cause)
      openAIApiKey ignore in
  actions
  = [ PageChat.console_error cause;
      PageChat.console_error (PageChat.Exn "Error" "Unable to get page content");
      PageChat.setError "Error: Error: Unable to get page content" ]
  /\ PageChat.Chatbot history "" "" (PageChat.error_after actions "")
     = Some (map PageChat.ChatMessageRow history
             ++ [ PageChat.Row "Bot: "
                    "Error: Error: Error: Unable to get page content" ]).
Proof.
  split; [reflexivity|].
  cbv zeta. unfold PageChat.Chatbot.
  change (PageChat.error_after _ "")
    with "Error: Error: Unable to get page content".
  now rewrite orb_true_r.
Qed.

(** ** Summarising the page *)

(** X15. When the effect sets a summary, the page content was fetched and
    split, the table lists a template for the type of the summary, and the
    chain answered on that template and those documents; the summary set is
    the old one with [content] replaced by the text of that answer; and
    unless that text is empty the effect then does nothing when it runs
    again, whatever the tab and the page do. *)
Theorem summary_set_once {Docs : Type}
    (createDocuments : nat -> option nat -> list string -> PageChat.exn + Docs)
    (SUPPORTED_SUMMARY_TYPES : list (string * string))
    (summarize : string -> Docs -> PageChat.exn + string)
    (loading : bool) (summary : list (string * tree))
    (tabs : PageChat.exn + list PageChat.tab)
    (sendMessage : nat -> PageChat.GetPageContentRequest
                   -> PageChat.exn + option PageChat.GetPageContentResponse)
    (summary' : list (string * tree)) :
  In (PageChat.setSummary summary')
     (PageChat.summarizeCurrentPage createDocuments SUPPORTED_SUMMARY_TYPES
        summarize loading summary tabs sendMessage) ->
  exists (response : PageChat.GetPageContentResponse) (docs : Docs)
         (template response_text : string),
    snd (PageChat.getCurrentPageContent tabs sendMessage)
    = PageChat.Return (Some response)
    /\ createDocuments 4000 None [PageChat.pageContent response] = inr docs
    /\ PageChat.template_of SUPPORTED_SUMMARY_TYPES (PageChat.prop "type" summary)
       = Some template
    /\ summarize template docs = inr response_text
    /\ (forall k : string,
          PageChat.prop k summary'
          = if String.eqb k "content" then TStr response_text
            else PageChat.prop k summary)
    /\ (response_text <> "" ->
        forall loading' tabs' sendMessage',
          PageChat.summarizeCurrentPage createDocuments SUPPORTED_SUMMARY_TYPES
            summarize loading' summary' tabs' sendMessage' = []).
Proof.
  unfold PageChat.summarizeCurrentPage at 1.
  destruct (loading || PageChat.truthy (PageChat.prop "content" summary));
    [intros []|].
  destruct (snd (PageChat.getCurrentPageContent tabs sendMessage))
    as [[response|]|e]; try (intros [H|[]]; discriminate H); try (intros []).
  destruct (createDocuments _ _ _) as [e|docs] eqn:Hdocs;
    [intros [H|[]]; discriminate H|].
  destruct (PageChat.template_of _ _) as [template|] eqn:Htpl; [|intros []].
  destruct (String.eqb template ""); [intros []|].
  destruct (summarize template docs) as [e|response_text] eqn:Hsum;
    [intros [H|[H|[]]]; discriminate H|].
  intros [H|[H|[]]]; [discriminate H|]. injection H as <-.
  exists response, docs, template, response_text.
  split; [reflexivity|]. split; [exact Hdocs|]. split; [reflexivity|].
  split; [exact Hsum|]. split.
  - intros k. unfold PageChat.prop. rewrite obj_get_obj_set.
    now destruct (String.eqb k "content").
  - intros Hne loading' tabs' sendMessage'.
    unfold PageChat.summarizeCurrentPage, PageChat.prop.
    rewrite obj_get_obj_set. simpl.
    destruct (String.eqb_spec response_text "") as [->|_]; [contradiction|].
    now rewrite orb_true_r.
Qed.

Lemma summary_set_once_witness :
  In (PageChat.setSummary [("type", TStr "concise"); ("content", TStr "short")])
     (PageChat.summarizeCurrentPage
        (fun _ _ texts => inr texts) [("concise", "Summarise: {text}")]
        (fun _ _ => inr "short") false [("type", TStr "concise")]
        (inr [PageChat.Tab (Some 7)])
        (fun _ _ => inr (Some (PageChat.Response "text of the page"))))
  /\ exists (response : PageChat.GetPageContentResponse) (docs : list string)
            (template response_text : string),
      snd (PageChat.getCurrentPageContent
             (inr [PageChat.Tab (Some 7)])
             (fun _ _ => inr (Some (PageChat.Response "text of the page"))))
      = PageChat.Return (Some response)
      /\ @inr PageChat.exn _ [PageChat.pageContent response] = inr docs
      /\ PageChat.template_of [("concise", "Summarise: {text}")]
           (PageChat.prop "type" [("type", TStr "concise")])
         = Some template
      /\ @inr PageChat.exn _ "short" = inr response_text
      /\ (forall k : string,
            PageChat.prop k [("type", TStr "concise"); ("content", TStr "short")]
            = if String.eqb k "content" then TStr response_text
              else PageChat.prop k [("type", TStr "concise")])
      /\ (response_text <> "" ->
          forall loading' tabs' sendMessage',
            PageChat.summarizeCurrentPage
              (fun _ _ texts => inr texts) [("concise", "Summarise: {text}")]
              (fun _ _ => inr "short") loading'
              [("type", TStr "concise"); ("content", TStr "short")]
              tabs' sendMessage' = []).
Proof.
  assert (Hin :
    In (PageChat.setSummary [("type", TStr "concise"); ("content", TStr "short")])
       (PageChat.summarizeCurrentPage
          (fun _ _ texts => inr texts) [("concise", "Summarise: {text}")]
          (fun _ _ => inr "short") false [("type", TStr "concise")]
          (inr [PageChat.Tab (Some 7)])
          (fun _ _ => inr (Some (PageChat.Response "text of the page")))))
    by (right; left; reflexivity).
  split; [exact Hin|].
  exact (summary_set_once
           (fun _ _ texts => inr texts) [("concise", "Summarise: {text}")]
           (fun _ _ => inr "short") false [("type", TStr "concise")]
           (inr [PageChat.Tab (Some 7)])
           (fun _ _ => inr (Some (PageChat.Response "text of the page")))
           [("type", TStr "concise"); ("content", TStr "short")] Hin).
Defined.

(** X16. The summarisation chain is called only when the stored summary is
    loaded and has no content yet, and only with the non-empty template
    that the table lists for the type of the summary. *)
Theorem chain_called_with_listed_template {Docs : Type}
    (createDocuments : nat -> option nat -> list string -> PageChat.exn + Docs)
    (SUPPORTED_SUMMARY_TYPES : list (string * string))
    (summarize : string -> Docs -> PageChat.exn + string)
    (loading : bool) (summary : list (string * tree))
    (tabs : PageChat.exn + list PageChat.tab)
    (sendMessage : nat -> PageChat.GetPageContentRequest
                   -> PageChat.exn + option PageChat.GetPageContentResponse)
    (template : string) :
  In (PageChat.chain_call template)
     (PageChat.summarizeCurrentPage createDocuments SUPPORTED_SUMMARY_TYPES
        summarize loading summary tabs sendMessage) ->
  loading = false
  /\ PageChat.truthy (PageChat.prop "content" summary) = false
  /\ template <> ""
  /\ exists type_ : string,
       PageChat.prop "type" summary = TStr type_
       /\ In (type_, template) SUPPORTED_SUMMARY_TYPES.
Proof.
  unfold PageChat.summarizeCurrentPage.
  destruct loading; [intros []|].
  destruct (PageChat.truthy (PageChat.prop "content" summary)); [intros []|].
  simpl.
  destruct (snd (PageChat.getCurrentPageContent tabs sendMessage))
    as [[response|]|e]; try (intros [H|[]]; discriminate H); try (intros []).
  destruct (createDocuments _ _ _) as [e|docs];
    [intros [H|[]]; discriminate H|].
  unfold PageChat.template_of.
  destruct (List.find _ SUPPORTED_SUMMARY_TYPES) as [[ty tpl]|] eqn:Hfind;
    [|intros []].
  simpl. destruct (String.eqb_spec tpl "") as [->|Hne]; [intros []|].
  intros Hin.
  assert (Heq : template = tpl).
  { destruct (summarize tpl docs);
      destruct Hin as [H|[H|[]]]; try discriminate H; now injection H. }
  subst template. repeat split; [exact Hne|].
  apply List.find_some in Hfind as [Hin' His]. simpl in His.
  unfold PageChat.is_string in His.
  destruct (PageChat.prop "type" summary) as [|x| | | |]; try discriminate His.
  apply String.eqb_eq in His. subst x. exists ty. now split.
Qed.

Lemma chain_called_with_listed_template_witness :
  In (PageChat.chain_call "Summarise: {text}")
     (PageChat.summarizeCurrentPage
        (fun _ _ texts => inr texts)
        [("detailed", "Explain: {text}"); ("concise", "Summarise: {text}")]
        (fun _ _ => inr "short") false [("type", TStr "concise")]
        (inr [PageChat.Tab (Some 7)])
        (fun _ _ => inr (Some (PageChat.Response "text of the page"))))
  /\ (false = false
      /\ PageChat.truthy (PageChat.prop "content" [("type", TStr "concise")]) = false
      /\ "Summarise: {text}" <> ""
      /\ exists type_ : string,
           PageChat.prop "type" [("type", TStr "concise")] = TStr type_
           /\ In (type_, "Summarise: {text}")
                 [("detailed", "Explain: {text}"); ("concise", "Summarise: {text}")]).
Proof.
  assert (Hin :
    In (PageChat.chain_call "Summarise: {text}")
       (PageChat.summarizeCurrentPage
          (fun _ _ texts => inr texts)
          [("detailed", "Explain: {text}"); ("concise", "Summarise: {text}")]
          (fun _ _ => inr "short") false [("type", TStr "concise")]
          (inr [PageChat.Tab (Some 7)])
          (fun _ _ => inr (Some (PageChat.Response "text of the page")))))
    by (left; reflexivity).
  split; [exact Hin|].
  exact (chain_called_with_listed_template
           (fun _ _ texts => inr texts)
           [("detailed", "Explain: {text}"); ("concise", "Summarise: {text}")]
           (fun _ _ => inr "short") false [("type", TStr "concise")]
           (inr [PageChat.Tab (Some 7)])
           (fun _ _ => inr (Some (PageChat.Response "text of the page")))
           "Summarise: {text}" Hin).
Defined.
